(** * Bulk transfer batching of soltoolkit-sdk (src/disperse)

    A shallow embedding of
    - [transaction-builder.ts]: the instruction builders and [buildTransaction];
    - [bulk-sol-transfer.ts]:   [generateBulkSolTransactions];
    - [bulk-spl-transfer.ts]:   [generateTokenAccountCreationTransactions],
      [generateBulkSplTransactions], [generateCompleteBulkSplTransactions];
    - [utils.ts]:               [chunk];
    followed by the properties of the batching and of the two-phase
    orchestration.

    Modelling conventions.
    - A JavaScript [number] that the code uses as a count, an index, a
      capacity or an amount is a [Z] (fractions, NaN and the infinities are
      left out); [a % b] is [js_rem] (NaN when [b] is zero, otherwise the
      truncated remainder, whose sign follows the dividend).
    - An optional field ([field?: T]) is an [option]; [undefined] is [None].
    - The values built by @solana/web3.js and @solana/spl-token are terms that
      record the arguments of the call which built them.  The modules
      [BulkSol] and [BulkSpl] embed the generators on inputs that the
      libraries accept: there every call of a library returns.  The module
      [WithLibrary] embeds the transfer entry points once more with the calls
      that can throw ([new PublicKey], [getAssociatedTokenAddressSync] and
      the two transfer encoders), over a [Library] that says what each call
      refuses; where the library refuses nothing the two embeddings agree.
    - [connection.getAccountInfo] is an oracle from addresses to outcomes; an
      [async] function is a computation that returns the list of lookups it
      issued, in order, together with its result or the error it was rejected
      with. *)

From Stdlib Require Import String List ZArith Bool Arith Lia.
Import ListNotations.
Local Open Scope string_scope.
Local Open Scope list_scope.
Local Open Scope Z_scope.

Set Implicit Arguments.

(** ** JavaScript values *)

Inductive JsError : Type :=
| Error (message : string).

(** [a % b]: [None] stands for NaN. *)
Definition js_rem (a b : Z) : option Z :=
  if b =? 0 then None else Some (Z.rem a b).

(** [x === 0] for the result of a remainder. *)
Definition js_is_zero (x : option Z) : bool :=
  match x with
  | Some v => v =? 0
  | None => false
  end.

(** A destructuring or parameter default: [x = d] takes [d] when [x] is
    [undefined]. *)
Definition orDefault {A : Type} (x : option A) (d : A) : A :=
  match x with
  | Some v => v
  | None => d
  end.

(** [for (let i = 0; i < arr.length; i++) { body }], the loop state threaded
    through; the head of the remaining array is [arr[i]]. *)
Fixpoint forEach {X St : Type} (body : nat -> X -> St -> St)
         (i : nat) (arr : list X) (st : St) : St :=
  match arr with
  | [] => st
  | x :: rest => forEach body (S i) rest (body i x st)
  end.

(** ** External library values: @solana/web3.js and @solana/spl-token *)

Inductive PublicKey : Type :=
| PublicKey_new (value : string)
| getAssociatedTokenAddressSync (mint owner : PublicKey).

Inductive TransactionInstruction : Type :=
| SystemProgram_transfer (fromPubkey toPubkey : PublicKey) (lamports : Z)
| createTransferInstruction (source destination owner : PublicKey) (amount : Z)
| createAssociatedTokenAccountInstruction
    (payer associatedToken owner mint : PublicKey)
| TransactionInstruction_new
    (keys : list (PublicKey * bool * bool)) (data : string) (programId : PublicKey).

(** A [Transaction] is the list of the instructions added to it. *)
Definition Transaction : Type := list TransactionInstruction.

Inductive AccountInfo : Type :=
| AccountInfo_of (lamports : Z).

(** What the promise of [getAccountInfo] settles to. *)
Inductive LookupOutcome : Type :=
| Resolves (accountInfo : option AccountInfo)
| Rejects (reason : JsError).

Definition Connection : Type := PublicKey -> LookupOutcome.

(** ** Asynchronous computations *)

Definition Async (A : Type) : Type := (list PublicKey * (JsError + A))%type.

Definition ret {A : Type} (a : A) : Async A := ([], inr a).

Definition throw {A : Type} (e : JsError) : Async A := ([], inl e).

Definition bind {A B : Type} (m : Async A) (k : A -> Async B) : Async B :=
  match m with
  | (issued, inl e) => (issued, inl e)
  | (issued, inr a) => let (later, r) := k a in (issued ++ later, r)
  end.

Notation "x <- m ;; k" := (bind m (fun x => k))
  (at level 61, m at next level, right associativity).

(** A synchronous call that may throw, made from an [async] function. *)
Definition liftSync {A : Type} (r : JsError + A) : Async A := ([], r).

(** [await connection.getAccountInfo(address)]. *)
Definition getAccountInfo (connection : Connection) (address : PublicKey)
  : Async (option AccountInfo) :=
  ([address],
   match connection address with
   | Resolves info => inr info
   | Rejects reason => inl reason
   end).

(** What a computation settled to. *)
Definition outcome {A : Type} (m : Async A) : JsError + A := snd m.

(** An [async] loop over an array. *)
Fixpoint forEachAsync {X St : Type} (body : nat -> X -> St -> Async St)
         (i : nat) (arr : list X) (st : St) : Async St :=
  match arr with
  | [] => ret st
  | x :: rest => st' <- body i x st ;; forEachAsync body (S i) rest st'
  end.

(** ** types.ts *)

Record ITransfer : Type := {
  recipient : string;
  amount : Z;
  associatedTokenAccount : option string
}.

(** ** transaction-builder.ts *)

Definition MEMO_PROGRAM_ID : PublicKey :=
  PublicKey_new "MemoSq4gqABAXKb96qnH8TysNcWxMyWCqXgDLGmfcHr".

Definition createSolTransferInstruction (from to : PublicKey) (amountLamports : Z)
  : TransactionInstruction :=
  SystemProgram_transfer from to amountLamports.

Definition createSplTransferInstruction
           (fromTokenAccount toTokenAccount owner : PublicKey) (rawAmount : Z)
  : TransactionInstruction :=
  createTransferInstruction fromTokenAccount toTokenAccount owner rawAmount.

Definition createSplTransferInstructionByOwners
           (mint fromOwner toOwner : PublicKey) (rawAmount : Z)
  : TransactionInstruction :=
  let fromTokenAccount := getAssociatedTokenAddressSync mint fromOwner in
  let toTokenAccount := getAssociatedTokenAddressSync mint toOwner in
  createTransferInstruction fromTokenAccount toTokenAccount fromOwner rawAmount.

Definition createMemoInstruction (memo : string) (signer : PublicKey)
  : TransactionInstruction :=
  TransactionInstruction_new [(signer, true, true)] memo MEMO_PROGRAM_ID.

Record TokenAccountInstruction : Type := {
  instruction : TransactionInstruction;
  associatedAddress : PublicKey
}.

Definition createTokenAccountInstruction (payer mint owner : PublicKey)
  : TokenAccountInstruction :=
  let associatedAddress := getAssociatedTokenAddressSync mint owner in
  let instruction :=
    createAssociatedTokenAccountInstruction payer associatedAddress owner mint in
  {| instruction := instruction; associatedAddress := associatedAddress |}.

Definition buildTransaction (instructions : list TransactionInstruction)
  : Transaction :=
  [] ++ instructions.

(** ** The state shared by the batching loops

    Every generator keeps [const transactions] and [let currentInstructions];
    the loop bodies and the [finalizeTransaction] closure update both. *)

Record Batch : Type := {
  transactions : list Transaction;
  currentInstructions : list TransactionInstruction
}.

Definition emptyBatch : Batch :=
  {| transactions := []; currentInstructions := [] |}.

(** [currentInstructions.push(instruction)]. *)
Definition push (instruction : TransactionInstruction) (st : Batch) : Batch :=
  {| transactions := transactions st;
     currentInstructions := currentInstructions st ++ [instruction] |}.

(** [transactions.push(buildTransaction(currentInstructions));
     currentInstructions = [];] *)
Definition emit (st : Batch) : Batch :=
  {| transactions := transactions st ++ [buildTransaction (currentInstructions st)];
     currentInstructions := [] |}.

(** The closure [finalizeTransaction], the same text in bulk-sol-transfer.ts
    and bulk-spl-transfer.ts, over the [memo] and [sender] of its function. *)
Definition finalizeTransaction (memo : string) (sender : PublicKey) (st : Batch)
  : Batch :=
  if (0 <? Z.of_nat (length (currentInstructions st))) then
    emit (push (createMemoInstruction memo sender) st)
  else st.

(** [(i + 1) % instructionsPerTx === 0 || i === arr.length - 1]. *)
Definition transferCut (instructionsPerTx : Z) (len i : nat) : bool :=
  js_is_zero (js_rem (Z.of_nat i + 1) instructionsPerTx)
  || (Z.of_nat i =? Z.of_nat len - 1).

(** ** bulk-sol-transfer.ts *)

Module BulkSol.

Record IBulkSolTransferConfig : Type := {
  sender : PublicKey;
  transfers : option (list ITransfer);
  recipients : option (list string);
  fixedAmount : option Z;
  instructionsPerTx : option Z;
  memo : option string
}.

Definition DEFAULT_INSTRUCTIONS_PER_TX : Z := 18.
Definition DEFAULT_MEMO : string := "Bulk SOL transfer".

Definition generateBulkSolTransactions (config : IBulkSolTransferConfig)
  : JsError + list Transaction :=
  let sender := sender config in
  let instructionsPerTx :=
    orDefault (instructionsPerTx config) DEFAULT_INSTRUCTIONS_PER_TX in
  let memo := orDefault (memo config) DEFAULT_MEMO in
  let finalizeTransaction := finalizeTransaction memo sender in
  match fixedAmount config, recipients config with
  | Some fixedAmount, Some recipients =>
      (* Mode 1: recipients with fixed amount *)
      inr (transactions
             (forEach
                (fun i r st =>
                   let st :=
                     push (createSolTransferInstruction
                             sender (PublicKey_new r) fixedAmount) st in
                   if transferCut instructionsPerTx (length recipients) i
                   then finalizeTransaction st else st)
                0 recipients emptyBatch))
  | _, _ =>
      match transfers config with
      | Some transfers =>
          (* Mode 2: transfers array *)
          inr (transactions
                 (forEach
                    (fun i t st =>
                       let st :=
                         push (createSolTransferInstruction
                                 sender (PublicKey_new (recipient t)) (amount t)) st in
                       if transferCut instructionsPerTx (length transfers) i
                       then finalizeTransaction st else st)
                    0 transfers emptyBatch))
      | None =>
          inl (Error "Either transfers or (recipients + fixedAmount) must be provided")
      end
  end.

End BulkSol.

(** ** bulk-spl-transfer.ts *)

Module BulkSpl.

Record IBulkSplTransferConfig : Type := {
  sender : PublicKey;
  mint : PublicKey;
  transfers : option (list ITransfer);
  recipients : option (list string);
  fixedAmount : option Z;
  instructionsPerTx : option Z;
  memo : option string;
  decimals : option Z
}.

Definition DEFAULT_INSTRUCTIONS_PER_TX_ACCOUNT_CREATION : Z := 12.
Definition DEFAULT_INSTRUCTIONS_PER_TX_TRANSFER : Z := 18.
Definition DEFAULT_MEMO : string := "Bulk SPL transfer".

(** The body of the loop of [generateTokenAccountCreationTransactions]. *)
Definition accountCreationStep
           (connection : Connection) (mint payer : PublicKey)
           (instructionsPerTx : Z) (len : nat)
           (i : nat) (r : string) (st : Batch) : Async Batch :=
  let recipientPubkey := PublicKey_new r in
  let associatedAddress := getAssociatedTokenAddressSync mint recipientPubkey in
  accountInfo <- getAccountInfo connection associatedAddress ;;
  let st :=
    match accountInfo with
    | None =>
        push (instruction (createTokenAccountInstruction payer mint recipientPubkey)) st
    | Some _ => st
    end in
  ret (if (Z.of_nat (length (currentInstructions st)) >=? instructionsPerTx)
          || (Z.of_nat i =? Z.of_nat len - 1)
       then
         if 0 <? Z.of_nat (length (currentInstructions st)) then emit st else st
       else st).

Definition generateTokenAccountCreationTransactions
           (connection : Connection) (mint payer : PublicKey)
           (recipients : list string) (instructionsPerTx : option Z)
  : Async (list Transaction) :=
  let instructionsPerTx :=
    orDefault instructionsPerTx DEFAULT_INSTRUCTIONS_PER_TX_ACCOUNT_CREATION in
  st <- forEachAsync
          (accountCreationStep connection mint payer instructionsPerTx
                               (length recipients))
          0 recipients emptyBatch ;;
  ret (transactions st).

Definition generateBulkSplTransactions (config : IBulkSplTransferConfig)
  : JsError + list Transaction :=
  let sender := sender config in
  let mint := mint config in
  let instructionsPerTx :=
    orDefault (instructionsPerTx config) DEFAULT_INSTRUCTIONS_PER_TX_TRANSFER in
  let memo := orDefault (memo config) DEFAULT_MEMO in
  let finalizeTransaction := finalizeTransaction memo sender in
  match fixedAmount config, recipients config with
  | Some fixedAmount, Some recipients =>
      (* Mode 1: recipients with fixed amount *)
      inr (transactions
             (forEach
                (fun i r st =>
                   let st :=
                     push (createSplTransferInstructionByOwners
                             mint sender (PublicKey_new r) fixedAmount) st in
                   if transferCut instructionsPerTx (length recipients) i
                   then finalizeTransaction st else st)
                0 recipients emptyBatch))
  | _, _ =>
      match transfers config with
      | Some transfers =>
          (* Mode 2: transfers array *)
          inr (transactions
                 (forEach
                    (fun i t st =>
                       let st :=
                         push (createSplTransferInstructionByOwners
                                 mint sender (PublicKey_new (recipient t)) (amount t)) st in
                       if transferCut instructionsPerTx (length transfers) i
                       then finalizeTransaction st else st)
                    0 transfers emptyBatch))
      | None =>
          inl (Error "Either transfers or (recipients + fixedAmount) must be provided")
      end
  end.

Record CompleteBulkSplTransactions : Type := {
  accountCreationTxs : list Transaction;
  transferTxs : list Transaction
}.

Definition generateCompleteBulkSplTransactions
           (connection : Connection) (config : IBulkSplTransferConfig)
  : Async CompleteBulkSplTransactions :=
  recipientList <-
    match recipients config with
    | Some recipients => ret recipients
    | None =>
        match transfers config with
        | Some transfers => ret (map recipient transfers)
        | None => throw (Error "Either transfers or recipients must be provided")
        end
    end ;;
  accountCreationTxs <-
    generateTokenAccountCreationTransactions
      connection (mint config) (sender config) recipientList
      (instructionsPerTx config) ;;
  transferTxs <- liftSync (generateBulkSplTransactions config) ;;
  ret {| accountCreationTxs := accountCreationTxs; transferTxs := transferTxs |}.

End BulkSpl.

(** ** utils.ts *)

(** How [Array.prototype.slice] reads an index of an array of [len] elements:
    a negative index counts from the end, and the result is clamped to
    [0 .. len]. *)
Definition relativeIndex (len : nat) (k : Z) : nat :=
  if k <? 0 then Z.to_nat (Z.max (Z.of_nat len + k) 0)
  else Z.to_nat (Z.min k (Z.of_nat len)).

(** [arr.slice(start, final)]. *)
Definition slice {T : Type} (arr : list T) (start final : Z) : list T :=
  let k := relativeIndex (length arr) start in
  let final := relativeIndex (length arr) final in
  firstn (final - k) (skipn k arr).

(** The loop [while (i < n) { chunks.push(arr.slice(i, (i += size))); }] of
    [chunk]: the arguments of [slice] are evaluated left to right, so the
    slice runs from the old [i] to the new one.  [None] when [fuel] turns of
    the loop did not end it. *)
Fixpoint chunk_while {T : Type} (fuel : nat) (arr : list T) (size : Z)
         (i : Z) (chunks : list (list T)) : option (list (list T)) :=
  match fuel with
  | O => None
  | S fuel' =>
      if i <? Z.of_nat (length arr)
      then chunk_while fuel' arr size (i + size)
                       (chunks ++ [slice arr i (i + size)])
      else Some chunks
  end.

Definition chunk {T : Type} (fuel : nat) (arr : list T) (size : Z)
  : option (list (list T)) :=
  chunk_while fuel arr size 0 [].

(** ** Vocabulary of the properties *)

(** The memo is the one instruction this module builds with the
    [TransactionInstruction] constructor itself. *)
Definition isMemo (ix : TransactionInstruction) : bool :=
  match ix with
  | TransactionInstruction_new _ _ _ => true
  | _ => false
  end.

(** The content operations of a transaction: everything but memos. *)
Definition contentOperations (tx : Transaction) : list TransactionInstruction :=
  filter (fun ix => negb (isMemo ix)) tx.

Definition memoOperations (tx : Transaction) : list TransactionInstruction :=
  filter isMemo tx.

(** Running totals of a list of sizes, from [done]. *)
Fixpoint runningTotals (done : nat) (sizes : list nat) : list nat :=
  match sizes with
  | [] => []
  | s :: rest => (done + s)%nat :: runningTotals (done + s) rest
  end.

Definition contentCount (tx : Transaction) : nat :=
  length (contentOperations tx).

(** After how many content operations each transaction of a list closes.  A
    cut falls after input index [i] when [S i] is among them. *)
Definition cutPositions (txs : list Transaction) : list nat :=
  runningTotals 0 (map contentCount txs).

(** [ceil(n / c)] on naturals, for [c >= 1]. *)
Definition ceilDiv (n c : nat) : nat := ((n + c - 1) / c)%nat.

(** The sizes of [n] items cut every [c]: full bundles, then the remainder. *)
Definition bundleSizes (c n : nat) : list nat :=
  repeat c (n / c) ++ (if (n mod c =? 0)%nat then [] else [(n mod c)%nat]).

Definition isNil {A : Type} (l : list A) : bool :=
  match l with
  | [] => true
  | _ => false
  end.

(** The grouping the transfer loops compute, as a function of the operations
    alone: [cur] is the open group and [i] the index of the head of [l]. *)
Fixpoint groupsBy {A : Type} (c : Z) (i : nat) (cur l : list A) : list (list A) :=
  match l with
  | [] => []
  | x :: r =>
      let cur' := cur ++ [x] in
      if js_is_zero (js_rem (Z.of_nat i + 1) c) || isNil r
      then cur' :: groupsBy c (S i) [] r
      else groupsBy c (S i) cur' r
  end.

(** Greedy chunks of [c]: a group closes when it holds [c] items or the items
    run out. *)
Fixpoint chunkAcc {A : Type} (c : Z) (cur l : list A) : list (list A) :=
  match l with
  | [] => match cur with [] => [] | _ => [cur] end
  | x :: r =>
      let cur' := cur ++ [x] in
      if Z.of_nat (length cur') >=? c
      then cur' :: chunkAcc c [] r
      else chunkAcc c cur' r
  end.

Definition chunksOf {A : Type} (c : Z) (l : list A) : list (list A) :=
  chunkAcc c [] l.

(** A group of operations closed by the memo. *)
Definition withMemo (memo : TransactionInstruction)
           (g : list TransactionInstruction) : Transaction :=
  g ++ [memo].

(** The end of the loop body of [generateTokenAccountCreationTransactions]:
    the test "every N instructions or at the end" and the flush it guards. *)
Definition flushWhenDue (instructionsPerTx : Z) (len i : nat) (st : Batch) : Batch :=
  if (Z.of_nat (length (currentInstructions st)) >=? instructionsPerTx)
     || (Z.of_nat i =? Z.of_nat len - 1)
  then if 0 <? Z.of_nat (length (currentInstructions st)) then emit st else st
  else st.

(** The body shared by the four transfer loops, over the builder of the
    branch. *)
Definition transferStep {X : Type} (build : X -> TransactionInstruction)
           (memo : string) (sender : PublicKey) (instructionsPerTx : Z) (len : nat)
           (i : nat) (x : X) (st : Batch) : Batch :=
  let st := push (build x) st in
  if transferCut instructionsPerTx len i
  then finalizeTransaction memo sender st else st.

(** The transfer requests a configuration denotes (spec 4.1, the normalizer):
    the recipients paired with the shared amount when both are given,
    otherwise the transfers array.  The source has no such function; its two
    branches dispatch on the same tests. *)
Definition requestsOf (transfers : option (list ITransfer))
           (recipients : option (list string)) (fixedAmount : option Z)
  : option (list ITransfer) :=
  match fixedAmount, recipients with
  | Some a, Some rs =>
      Some (map (fun r => {| recipient := r; amount := a;
                             associatedTokenAccount := None |}) rs)
  | _, _ => transfers
  end.

Definition solRequests (config : BulkSol.IBulkSolTransferConfig)
  : option (list ITransfer) :=
  requestsOf (BulkSol.transfers config) (BulkSol.recipients config)
             (BulkSol.fixedAmount config).

Definition splRequests (config : BulkSpl.IBulkSplTransferConfig)
  : option (list ITransfer) :=
  requestsOf (BulkSpl.transfers config) (BulkSpl.recipients config)
             (BulkSpl.fixedAmount config).

(** The operation each entry point builds for one request. *)
Definition solTransfer (config : BulkSol.IBulkSolTransferConfig) (t : ITransfer)
  : TransactionInstruction :=
  createSolTransferInstruction
    (BulkSol.sender config) (PublicKey_new (recipient t)) (amount t).

Definition splTransfer (config : BulkSpl.IBulkSplTransferConfig) (t : ITransfer)
  : TransactionInstruction :=
  createSplTransferInstructionByOwners
    (BulkSpl.mint config) (BulkSpl.sender config)
    (PublicKey_new (recipient t)) (amount t).

Definition solMemo (config : BulkSol.IBulkSolTransferConfig)
  : TransactionInstruction :=
  createMemoInstruction (orDefault (BulkSol.memo config) BulkSol.DEFAULT_MEMO)
                        (BulkSol.sender config).

Definition splMemo (config : BulkSpl.IBulkSplTransferConfig)
  : TransactionInstruction :=
  createMemoInstruction (orDefault (BulkSpl.memo config) BulkSpl.DEFAULT_MEMO)
                        (BulkSpl.sender config).

Definition solCapacity (config : BulkSol.IBulkSolTransferConfig) : Z :=
  orDefault (BulkSol.instructionsPerTx config) BulkSol.DEFAULT_INSTRUCTIONS_PER_TX.

Definition splCapacity (config : BulkSpl.IBulkSplTransferConfig) : Z :=
  orDefault (BulkSpl.instructionsPerTx config)
            BulkSpl.DEFAULT_INSTRUCTIONS_PER_TX_TRANSFER.

(** The associated token address whose existence is looked up for a
    recipient, and whether the oracle reports it missing. *)
Definition lookupAddress (mint : PublicKey) (r : string) : PublicKey :=
  getAssociatedTokenAddressSync mint (PublicKey_new r).

Definition isMissing (connection : Connection) (mint : PublicKey) (r : string)
  : bool :=
  match connection (lookupAddress mint r) with
  | Resolves None => true
  | _ => false
  end.

Definition lookupCompletes (connection : Connection) (mint : PublicKey) (r : string)
  : Prop :=
  exists info, connection (lookupAddress mint r) = Resolves info.

Definition provisioning (payer mint : PublicKey) (r : string)
  : TransactionInstruction :=
  instruction (createTokenAccountInstruction payer mint (PublicKey_new r)).

(** The recipient list the orchestrator derives. *)
Definition recipientListOf (config : BulkSpl.IBulkSplTransferConfig)
  : option (list string) :=
  match BulkSpl.recipients config with
  | Some rs => Some rs
  | None => option_map (map recipient) (BulkSpl.transfers config)
  end.

(** What the packing claims say of a list of transactions built from [n]
    requests at capacity [c]: how many there are, how many content operations
    each holds, and after which input indices they close. *)
Definition PackedEvery (c n : nat) (txs : list Transaction) : Prop :=
  length txs = ceilDiv n c
  /\ (forall k tx,
        nth_error txs k = Some tx ->
        contentCount tx
        = if (S k <? length txs)%nat then c
          else if (n mod c =? 0)%nat then c else (n mod c)%nat)
  /\ (forall i,
        (i < n)%nat ->
        In (S i) (cutPositions txs) <-> (S i mod c = 0 \/ S i = n)%nat).

(** What the marker claims say of one transaction: it is its content
    operations followed by the memo, the only memo in it, and the content is
    not empty. *)
Definition EndsWithMemo (memo : TransactionInstruction) (tx : Transaction) : Prop :=
  tx = contentOperations tx ++ [memo]
  /\ memoOperations tx = [memo]
  /\ contentOperations tx <> [].

(** A configuration with its [transfers] field replaced. *)
Definition solWithTransfers (config : BulkSol.IBulkSolTransferConfig)
           (ts : option (list ITransfer)) : BulkSol.IBulkSolTransferConfig :=
  {| BulkSol.sender := BulkSol.sender config;
     BulkSol.transfers := ts;
     BulkSol.recipients := BulkSol.recipients config;
     BulkSol.fixedAmount := BulkSol.fixedAmount config;
     BulkSol.instructionsPerTx := BulkSol.instructionsPerTx config;
     BulkSol.memo := BulkSol.memo config |}.

Definition splWithTransfers (config : BulkSpl.IBulkSplTransferConfig)
           (ts : option (list ITransfer)) : BulkSpl.IBulkSplTransferConfig :=
  {| BulkSpl.sender := BulkSpl.sender config;
     BulkSpl.mint := BulkSpl.mint config;
     BulkSpl.transfers := ts;
     BulkSpl.recipients := BulkSpl.recipients config;
     BulkSpl.fixedAmount := BulkSpl.fixedAmount config;
     BulkSpl.instructionsPerTx := BulkSpl.instructionsPerTx config;
     BulkSpl.memo := BulkSpl.memo config;
     BulkSpl.decimals := BulkSpl.decimals config |}.

(** ** Concrete inputs *)

Module Inputs.

Definition sender : PublicKey := PublicKey_new "sender".
Definition mint : PublicKey := PublicKey_new "mint".

Definition request (r : string) (a : Z) : ITransfer :=
  {| recipient := r; amount := a; associatedTokenAccount := None |}.

Definition solConfig (transfers : option (list ITransfer))
           (recipients : option (list string)) (fixedAmount : option Z)
           (instructionsPerTx : option Z) : BulkSol.IBulkSolTransferConfig :=
  {| BulkSol.sender := sender;
     BulkSol.transfers := transfers;
     BulkSol.recipients := recipients;
     BulkSol.fixedAmount := fixedAmount;
     BulkSol.instructionsPerTx := instructionsPerTx;
     BulkSol.memo := None |}.

Definition splConfig (transfers : option (list ITransfer))
           (recipients : option (list string)) (fixedAmount : option Z)
           (instructionsPerTx : option Z) : BulkSpl.IBulkSplTransferConfig :=
  {| BulkSpl.sender := sender;
     BulkSpl.mint := mint;
     BulkSpl.transfers := transfers;
     BulkSpl.recipients := recipients;
     BulkSpl.fixedAmount := fixedAmount;
     BulkSpl.instructionsPerTx := instructionsPerTx;
     BulkSpl.memo := None;
     BulkSpl.decimals := None |}.

(** The operations the entry points build for these configurations. *)
Definition solTo (r : string) (a : Z) : TransactionInstruction :=
  createSolTransferInstruction sender (PublicKey_new r) a.

Definition splTo (r : string) (a : Z) : TransactionInstruction :=
  createSplTransferInstructionByOwners mint sender (PublicKey_new r) a.

Definition create (r : string) : TransactionInstruction :=
  provisioning sender mint r.

Definition solMemo : TransactionInstruction :=
  createMemoInstruction BulkSol.DEFAULT_MEMO sender.

Definition splMemo : TransactionInstruction :=
  createMemoInstruction BulkSpl.DEFAULT_MEMO sender.

(** Oracles: no account exists; only the account of ["A"] exists; the
    lookup for one recipient is rejected. *)
Definition allMissing : Connection := fun _ => Resolves None.

Definition onlyAExists : Connection :=
  fun address =>
    match address with
    | getAssociatedTokenAddressSync _ (PublicKey_new r) =>
        if String.eqb r "A" then Resolves (Some (AccountInfo_of 2039280))
        else Resolves None
    | _ => Resolves None
    end.

Definition failsAt (bad : string) : Connection :=
  fun address =>
    match address with
    | getAssociatedTokenAddressSync _ (PublicKey_new r) =>
        if String.eqb r bad then Rejects (Error "failed to get info about account")
        else Resolves None
    | _ => Resolves None
    end.

(** Twenty-five recipients, ["A"] to ["Y"]. *)
Definition recipients25 : list string :=
  map (fun n => String (Ascii.ascii_of_nat (65 + n)) EmptyString) (seq 0 25).

End Inputs.

(** ** Vocabulary of the further properties *)

(** The lookups a computation issued, in order. *)
Definition lookupsIssued {A : Type} (m : Async A) : list PublicKey := fst m.

(** The token accounts that the instructions of a list of transactions
    create, and those they transfer to, in order. *)
Definition createdAccount (ix : TransactionInstruction) : list PublicKey :=
  match ix with
  | createAssociatedTokenAccountInstruction _ associatedToken _ _ => [associatedToken]
  | _ => []
  end.

Definition paidAccount (ix : TransactionInstruction) : list PublicKey :=
  match ix with
  | createTransferInstruction _ destination _ _ => [destination]
  | _ => []
  end.

Definition accountsCreated (txs : list Transaction) : list PublicKey :=
  flat_map createdAccount (concat txs).

Definition accountsPaid (txs : list Transaction) : list PublicKey :=
  flat_map paidAccount (concat txs).

(** Whether the oracle reports that no account lives at an address. *)
Definition reportedMissing (connection : Connection) (address : PublicKey) : bool :=
  match connection address with
  | Resolves None => true
  | _ => false
  end.

(** ** The calls of the libraries that can throw *)

(** What the libraries refuse: for each call that can throw, the error it
    throws on the given arguments, or [None] when it returns.  A call that
    returns gives the term that records its arguments. *)
Record Library : Type := {
  PublicKey_refuses : string -> option JsError;
  getAssociatedTokenAddressSync_refuses : PublicKey -> PublicKey -> option JsError;
  SystemProgram_transfer_refuses : PublicKey -> PublicKey -> Z -> option JsError;
  createTransferInstruction_refuses :
    PublicKey -> PublicKey -> PublicKey -> Z -> option JsError
}.

(** A call that throws [e] when it is refused with [e], and returns [value]
    otherwise. *)
Definition returning {A : Type} (refusal : option JsError) (value : A)
  : JsError + A :=
  match refusal with
  | Some e => inl e
  | None => inr value
  end.

(** Sequencing of statements that may throw. *)
Definition andThen {A B : Type} (r : JsError + A) (k : A -> JsError + B)
  : JsError + B :=
  match r with
  | inl e => inl e
  | inr a => k a
  end.

Notation "'let?' x ':=' m 'in' k" := (andThen m (fun x => k))
  (at level 10, x name, m at level 100, k at level 200).

(** A [for] loop whose body may throw: the first throw ends the loop and the
    function. *)
Fixpoint forEachThrowing {X St : Type} (body : nat -> X -> St -> JsError + St)
         (i : nat) (arr : list X) (st : St) : JsError + St :=
  match arr with
  | [] => inr st
  | x :: rest => let? st' := body i x st in forEachThrowing body (S i) rest st'
  end.

Module WithLibrary.

Section Calls.

Variable lib : Library.

(** [new PublicKey(value)]. *)
Definition newPublicKey (value : string) : JsError + PublicKey :=
  returning (PublicKey_refuses lib value) (PublicKey_new value).

(** [getAssociatedTokenAddressSync(mint, owner)]. *)
Definition associatedTokenAddress (mint owner : PublicKey) : JsError + PublicKey :=
  returning (getAssociatedTokenAddressSync_refuses lib mint owner)
            (getAssociatedTokenAddressSync mint owner).

Definition createSolTransferInstruction (from to : PublicKey) (amountLamports : Z)
  : JsError + TransactionInstruction :=
  returning (SystemProgram_transfer_refuses lib from to amountLamports)
            (SystemProgram_transfer from to amountLamports).

Definition createSplTransferInstructionByOwners
           (mint fromOwner toOwner : PublicKey) (rawAmount : Z)
  : JsError + TransactionInstruction :=
  let? fromTokenAccount := associatedTokenAddress mint fromOwner in
  let? toTokenAccount := associatedTokenAddress mint toOwner in
  returning (createTransferInstruction_refuses
               lib fromTokenAccount toTokenAccount fromOwner rawAmount)
            (createTransferInstruction
               fromTokenAccount toTokenAccount fromOwner rawAmount).

Definition generateBulkSolTransactions (config : BulkSol.IBulkSolTransferConfig)
  : JsError + list Transaction :=
  let sender := BulkSol.sender config in
  let instructionsPerTx :=
    orDefault (BulkSol.instructionsPerTx config) BulkSol.DEFAULT_INSTRUCTIONS_PER_TX in
  let memo := orDefault (BulkSol.memo config) BulkSol.DEFAULT_MEMO in
  let finalizeTransaction := finalizeTransaction memo sender in
  match BulkSol.fixedAmount config, BulkSol.recipients config with
  | Some fixedAmount, Some recipients =>
      (* Mode 1: recipients with fixed amount *)
      let? st :=
        forEachThrowing
          (fun i r st =>
             let? to := newPublicKey r in
             let? ix := createSolTransferInstruction sender to fixedAmount in
             let st := push ix st in
             inr (if transferCut instructionsPerTx (length recipients) i
                  then finalizeTransaction st else st))
          0 recipients emptyBatch in
      inr (transactions st)
  | _, _ =>
      match BulkSol.transfers config with
      | Some transfers =>
          (* Mode 2: transfers array *)
          let? st :=
            forEachThrowing
              (fun i t st =>
                 let? to := newPublicKey (recipient t) in
                 let? ix := createSolTransferInstruction sender to (amount t) in
                 let st := push ix st in
                 inr (if transferCut instructionsPerTx (length transfers) i
                      then finalizeTransaction st else st))
              0 transfers emptyBatch in
          inr (transactions st)
      | None =>
          inl (Error "Either transfers or (recipients + fixedAmount) must be provided")
      end
  end.

Definition generateBulkSplTransactions (config : BulkSpl.IBulkSplTransferConfig)
  : JsError + list Transaction :=
  let sender := BulkSpl.sender config in
  let mint := BulkSpl.mint config in
  let instructionsPerTx :=
    orDefault (BulkSpl.instructionsPerTx config)
              BulkSpl.DEFAULT_INSTRUCTIONS_PER_TX_TRANSFER in
  let memo := orDefault (BulkSpl.memo config) BulkSpl.DEFAULT_MEMO in
  let finalizeTransaction := finalizeTransaction memo sender in
  match BulkSpl.fixedAmount config, BulkSpl.recipients config with
  | Some fixedAmount, Some recipients =>
      (* Mode 1: recipients with fixed amount *)
      let? st :=
        forEachThrowing
          (fun i r st =>
             let? to := newPublicKey r in
             let? ix :=
               createSplTransferInstructionByOwners mint sender to fixedAmount in
             let st := push ix st in
             inr (if transferCut instructionsPerTx (length recipients) i
                  then finalizeTransaction st else st))
          0 recipients emptyBatch in
      inr (transactions st)
  | _, _ =>
      match BulkSpl.transfers config with
      | Some transfers =>
          (* Mode 2: transfers array *)
          let? st :=
            forEachThrowing
              (fun i t st =>
                 let? to := newPublicKey (recipient t) in
                 let? ix :=
                   createSplTransferInstructionByOwners
                     mint sender to (amount t) in
                 let st := push ix st in
                 inr (if transferCut instructionsPerTx (length transfers) i
                      then finalizeTransaction st else st))
              0 transfers emptyBatch in
          inr (transactions st)
      | None =>
          inl (Error "Either transfers or (recipients + fixedAmount) must be provided")
      end
  end.

End Calls.

End WithLibrary.

(** ** Vocabulary of the refusals *)

(** The first refusal met while the operation of one request is built, in
    the order of the calls: the recipient's key, then, for SPL, the sender's
    and the recipient's token address, then the transfer encoder. *)
Definition solRefusal (lib : Library) (config : BulkSol.IBulkSolTransferConfig)
           (t : ITransfer) : option JsError :=
  match PublicKey_refuses lib (recipient t) with
  | Some e => Some e
  | None =>
      SystemProgram_transfer_refuses
        lib (BulkSol.sender config) (PublicKey_new (recipient t)) (amount t)
  end.

Definition splRefusal (lib : Library) (config : BulkSpl.IBulkSplTransferConfig)
           (t : ITransfer) : option JsError :=
  let mint := BulkSpl.mint config in
  let sender := BulkSpl.sender config in
  let to := PublicKey_new (recipient t) in
  match PublicKey_refuses lib (recipient t) with
  | Some e => Some e
  | None =>
      match getAssociatedTokenAddressSync_refuses lib mint sender with
      | Some e => Some e
      | None =>
          match getAssociatedTokenAddressSync_refuses lib mint to with
          | Some e => Some e
          | None =>
              createTransferInstruction_refuses
                lib (getAssociatedTokenAddressSync mint sender)
                (getAssociatedTokenAddressSync mint to) sender (amount t)
          end
      end
  end.

(** The first refusal along an array. *)
Fixpoint firstRefusal {X : Type} (refusal : X -> option JsError) (arr : list X)
  : option JsError :=
  match arr with
  | [] => None
  | x :: rest =>
      match refusal x with
      | Some e => Some e
      | None => firstRefusal refusal rest
      end
  end.

(** The request that the first mode makes of a recipient: the shared amount,
    no token account given. *)
Definition fixedRequest (r : string) (a : Z) : ITransfer :=
  {| recipient := r; amount := a; associatedTokenAccount := None |}.

(** A library that refuses, as [new PublicKey] of web3.js does, every string
    too short to be the base58 text of 32 bytes, and nothing else. *)
Definition refusingShortKeys : Library :=
  {| PublicKey_refuses :=
       fun value =>
         if (String.length value <? 32)%nat
         then Some (Error "Invalid public key input") else None;
     getAssociatedTokenAddressSync_refuses := fun _ _ => None;
     SystemProgram_transfer_refuses := fun _ _ _ => None;
     createTransferInstruction_refuses := fun _ _ _ _ => None |}.

(** * Properties *)

(** ** Arithmetic of the cut test *)

Lemma js_cut_positive (c : Z) (i : nat) :
  1 <= c ->
  js_is_zero (js_rem (Z.of_nat i + 1) c) = ((Z.of_nat i + 1) mod c =? 0).
Proof.
  intros Hc. unfold js_rem.
  destruct (Z.eqb_spec c 0) as [->|_]; [lia|].
  cbn [js_is_zero]. rewrite Z.rem_mod_nonneg by lia. reflexivity.
Qed.

Lemma succ_mod_full (c n k : Z) :
  1 <= c -> 0 <= n -> n mod c = k -> k + 1 = c -> (n + 1) mod c = 0.
Proof.
  intros Hc Hn Hk Hfull.
  rewrite (Z.div_mod n c) at 1 by lia. rewrite Hk.
  replace (c * (n / c) + k + 1) with (0 + (n / c + 1) * c) by lia.
  rewrite Z.mod_add by lia. apply Z.mod_0_l. lia.
Qed.

Lemma succ_mod_open (c n k : Z) :
  1 <= c -> 0 <= n -> n mod c = k -> k + 1 < c -> (n + 1) mod c = k + 1.
Proof.
  intros Hc Hn Hk Hopen.
  assert (0 <= k) by (subst k; apply Z.mod_pos_bound; lia).
  rewrite (Z.div_mod n c) at 1 by lia. rewrite Hk.
  replace (c * (n / c) + k + 1) with ((k + 1) + (n / c) * c) by lia.
  rewrite Z.mod_add by lia. apply Z.mod_small. lia.
Qed.

(** ** The pure groupings *)

Section Groupings.

Variable A : Type.
Implicit Types (cur l : list A) (c : Z).

Lemma groupsBy_concat c i cur l :
  concat (groupsBy c i cur l) = match l with [] => [] | _ => cur ++ l end.
Proof.
  revert i cur. induction l as [|x r IH]; intros i cur; [reflexivity|].
  cbn [groupsBy].
  destruct (js_is_zero (js_rem (Z.of_nat i + 1) c) || isNil r) eqn:Hcut.
  - cbn [concat]. rewrite IH. destruct r.
    + now rewrite app_nil_r.
    + now rewrite <- app_assoc.
  - apply orb_false_iff in Hcut as [_ Hr]. rewrite IH.
    destruct r; [discriminate|]. now rewrite <- app_assoc.
Qed.

Lemma groupsBy_nonempty c i cur l :
  Forall (fun g => g <> []) (groupsBy c i cur l).
Proof.
  revert i cur. induction l as [|x r IH]; intros i cur; [constructor|].
  cbn [groupsBy].
  destruct (js_is_zero (js_rem (Z.of_nat i + 1) c) || isNil r).
  - constructor; [|apply IH]. now destruct cur.
  - apply IH.
Qed.

Lemma chunkAcc_concat c cur l : concat (chunkAcc c cur l) = cur ++ l.
Proof.
  revert cur. induction l as [|x r IH]; intros cur.
  - destruct cur; [reflexivity|]. cbn. now rewrite !app_nil_r.
  - cbn [chunkAcc].
    destruct (Z.of_nat (length (cur ++ [x])) >=? c).
    + cbn [concat]. rewrite IH. now rewrite <- app_assoc.
    + rewrite IH. now rewrite <- app_assoc.
Qed.

(** With a positive capacity and the open group in step with the index,
    cutting on the index is cutting on the size of the group. *)
Lemma groupsBy_chunkAcc c i cur l :
  1 <= c ->
  Z.of_nat i mod c = Z.of_nat (length cur) ->
  l <> [] \/ cur = [] ->
  groupsBy c i cur l = chunkAcc c cur l.
Proof.
  intros Hc. revert i cur.
  induction l as [|x r IH]; intros i cur Hstep Hopen.
  - destruct Hopen as [Hl| ->]; [contradiction|reflexivity].
  - cbn [groupsBy chunkAcc].
    assert (Hlt : Z.of_nat (length cur) < c)
      by (rewrite <- Hstep; apply Z.mod_pos_bound; lia).
    rewrite js_cut_positive by assumption.
    rewrite length_app. cbn [length].
    destruct (Z.eq_dec (Z.of_nat (length cur) + 1) c) as [Hfull|Hnot].
    + rewrite (succ_mod_full Hc (Nat2Z.is_nonneg i) Hstep Hfull).
      cbn [Z.eqb orb].
      replace (Z.of_nat (length cur + 1) >=? c) with true
        by (symmetry; rewrite Z.geb_leb; apply Z.leb_le; lia).
      f_equal. apply IH; [|now right].
      rewrite Nat2Z.inj_succ. unfold Z.succ.
      now rewrite (succ_mod_full Hc (Nat2Z.is_nonneg i) Hstep Hfull).
    + assert (Hsucc : (Z.of_nat i + 1) mod c = Z.of_nat (length cur) + 1)
        by (apply succ_mod_open; lia).
      rewrite Hsucc.
      replace (Z.of_nat (length cur) + 1 =? 0) with false
        by (symmetry; apply Z.eqb_neq; lia).
      replace (Z.of_nat (length cur + 1) >=? c) with false
        by (symmetry; rewrite Z.geb_leb; apply Z.leb_gt; lia).
      cbn [orb]. destruct r as [|y r'].
      * cbn. destruct cur; reflexivity.
      * cbn [isNil]. apply IH; [|left; discriminate].
        rewrite Nat2Z.inj_succ. unfold Z.succ. rewrite Hsucc.
        rewrite length_app. cbn [length]. lia.
Qed.

End Groupings.

(** ** Sizes of greedy chunks *)

Section BundleSizes.

Variable C : nat.
Hypothesis C_positive : (1 <= C)%nat.

Lemma bundleSizes_zero : bundleSizes C 0 = [].
Proof.
  unfold bundleSizes. rewrite Nat.Div0.div_0_l, Nat.Div0.mod_0_l. reflexivity.
Qed.

Lemma bundleSizes_small (n : nat) :
  (0 < n)%nat -> (n < C)%nat -> bundleSizes C n = [n].
Proof.
  intros Hpos Hlt. unfold bundleSizes.
  rewrite Nat.div_small, Nat.mod_small by assumption.
  destruct (Nat.eqb_spec n 0); [lia|reflexivity].
Qed.

Lemma bundleSizes_full (m : nat) :
  bundleSizes C (C + m) = C :: bundleSizes C m.
Proof.
  unfold bundleSizes.
  replace (C + m)%nat with (m + 1 * C)%nat by lia.
  rewrite Nat.div_add, Nat.Div0.mod_add by lia.
  replace (m / C + 1)%nat with (S (m / C)) by lia. reflexivity.
Qed.

Lemma chunkAcc_sizes (A : Type) (cur l : list A) :
  (length cur < C)%nat ->
  map (@length A) (chunkAcc (Z.of_nat C) cur l)
  = bundleSizes C (length cur + length l).
Proof.
  revert cur. induction l as [|x r IH]; intros cur Hlt.
  - cbn [chunkAcc length]. rewrite Nat.add_0_r. destruct cur as [|a cur'].
    + cbn [length]. now rewrite bundleSizes_zero.
    + rewrite bundleSizes_small; [reflexivity|cbn; lia|assumption].
  - cbn [chunkAcc]. rewrite Z.geb_leb.
    assert (Hlen : length (cur ++ [x]) = S (length cur))
      by (rewrite length_app; cbn; lia).
    destruct (Z.leb_spec (Z.of_nat C) (Z.of_nat (length (cur ++ [x])))) as [Hge|Hless].
    + cbn [map]. rewrite IH by (cbn; lia). cbn [length].
      replace (length cur + S (length r))%nat with (C + (0 + length r))%nat by lia.
      rewrite bundleSizes_full. f_equal. lia.
    + rewrite IH by lia. f_equal. cbn [length]. lia.
Qed.

Lemma bundleSizes_length (n : nat) :
  length (bundleSizes C n) = ceilDiv n C.
Proof.
  unfold bundleSizes, ceilDiv.
  rewrite length_app, repeat_length.
  pose proof (Nat.div_mod_eq n C) as Hdiv.
  pose proof (Nat.mod_upper_bound n C ltac:(lia)) as Hrem.
  destruct (Nat.eqb_spec (n mod C) 0) as [Hz|Hnz]; cbn [length].
  - apply Nat.div_unique with (r := (C - 1)%nat); lia.
  - apply Nat.div_unique with (r := (n mod C - 1)%nat); lia.
Qed.

Lemma bundleSizes_nth (n k s : nat) :
  nth_error (bundleSizes C n) k = Some s ->
  s = if (S k <? length (bundleSizes C n))%nat then C
      else if (n mod C =? 0)%nat then C else (n mod C)%nat.
Proof.
  unfold bundleSizes. rewrite length_app, repeat_length. intros Hnth.
  destruct (Nat.lt_ge_cases k (n / C)) as [Hin|Hout].
  - rewrite nth_error_app1 in Hnth by (now rewrite repeat_length).
    apply nth_error_In, repeat_spec in Hnth. subst s.
    destruct (Nat.ltb_spec (S k) (n / C + length (if (n mod C =? 0)%nat
                                                 then [] else [(n mod C)%nat])));
      [reflexivity|].
    destruct (n mod C =? 0)%nat; [reflexivity|]. cbn [length] in *. lia.
  - rewrite nth_error_app2 in Hnth by (now rewrite repeat_length).
    rewrite repeat_length in Hnth.
    destruct (n mod C =? 0)%nat eqn:Hz.
    + destruct (k - n / C)%nat; discriminate.
    + destruct (k - n / C)%nat as [|j] eqn:Hk; [|destruct j; discriminate].
      injection Hnth as <-. cbn [length].
      destruct (Nat.ltb_spec (S k) (n / C + 1)); [lia|reflexivity].
Qed.

Lemma bundleSizes_bound (n s : nat) :
  In s (bundleSizes C n) -> (1 <= s <= C)%nat.
Proof.
  unfold bundleSizes. intros Hin. apply in_app_or in Hin as [Hin|Hin].
  - apply repeat_spec in Hin. lia.
  - pose proof (Nat.mod_upper_bound n C ltac:(lia)).
    destruct (Nat.eqb_spec (n mod C) 0); [contradiction|].
    destruct Hin as [<-|[]]. lia.
Qed.

Lemma runningTotals_repeat (q done p : nat) (tl : list nat) :
  In p (runningTotals done (repeat C q ++ tl))
  <-> (exists k, (1 <= k <= q)%nat /\ p = (done + k * C)%nat)
      \/ In p (runningTotals (done + q * C) tl).
Proof.
  revert done. induction q as [|q IH]; intros done.
  - cbn [repeat app Nat.mul]. rewrite Nat.add_0_r. split; [now right|].
    intros [(k & Hk & _)|Hin]; [lia|assumption].
  - cbn [repeat app runningTotals In]. rewrite IH.
    replace (done + C + q * C)%nat with (done + S q * C)%nat by lia.
    split.
    + intros [Hp|[(k & Hk & Hp)|Hin]].
      * left. exists 1%nat. split; lia.
      * left. exists (S k). split; lia.
      * now right.
    + intros [(k & Hk & Hp)|Hin].
      * destruct (Nat.eq_dec k 1) as [->|Hk1].
        -- left. lia.
        -- right. left. exists (k - 1)%nat. split; [lia|].
           replace k with (S (k - 1)) in Hp by lia. lia.
      * right. now right.
Qed.

Lemma bundleSizes_cuts (n p : nat) :
  In p (runningTotals 0 (bundleSizes C n))
  <-> (1 <= p <= n)%nat /\ (p mod C = 0 \/ p = n)%nat.
Proof.
  unfold bundleSizes. rewrite runningTotals_repeat. cbn [Nat.add].
  pose proof (Nat.div_mod_eq n C) as Hdiv.
  pose proof (Nat.mod_upper_bound n C ltac:(lia)) as Hrem.
  split.
  - intros [(k & Hk & ->)|Hin].
    + split; [nia|]. left. apply Nat.Div0.mod_mul.
    + destruct (Nat.eqb_spec (n mod C) 0) as [Hz|Hnz]; [contradiction|].
      destruct Hin as [<-|[]]. split; [nia|]. right. nia.
  - intros [Hrange [Hmod| ->]].
    + left. exists (p / C)%nat.
      pose proof (Nat.div_mod_eq p C) as Hp. rewrite Hmod in Hp.
      pose proof (Nat.Div0.div_le_mono p n C (proj2 Hrange)).
      split; nia.
    + destruct (Nat.eqb_spec (n mod C) 0) as [Hz|Hnz].
      * left. exists (n / C)%nat. split; nia.
      * right. left. nia.
Qed.

End BundleSizes.

(** ** The transfer loops compute [groupsBy] *)

Section TransferLoop.

Variable X : Type.
Variable build : X -> TransactionInstruction.
Variables (memo : string) (sender : PublicKey) (c : Z) (len : nat).

Local Abbreviation closed := (withMemo (createMemoInstruction memo sender)).

Lemma last_index (i : nat) (r : list X) :
  (i + S (length r) = len)%nat ->
  (Z.of_nat i =? Z.of_nat len - 1) = isNil (map build r).
Proof.
  intros Hlen. destruct r as [|y r']; cbn [isNil map length] in *.
  - apply Z.eqb_eq. lia.
  - apply Z.eqb_neq. lia.
Qed.

Lemma finalizeTransaction_push (ix : TransactionInstruction) (st : Batch) :
  finalizeTransaction memo sender (push ix st)
  = {| transactions :=
         transactions st ++ [closed (currentInstructions st ++ [ix])];
       currentInstructions := [] |}.
Proof.
  unfold finalizeTransaction, push, emit, buildTransaction, withMemo.
  cbn [currentInstructions transactions app].
  rewrite length_app. cbn [length].
  destruct (Z.ltb_spec 0 (Z.of_nat (length (currentInstructions st) + 1)));
    [reflexivity|lia].
Qed.

Lemma transfer_loop (rest : list X) (i : nat) (st : Batch) :
  (i + length rest = len)%nat ->
  transactions (forEach (transferStep build memo sender c len) i rest st)
  = transactions st
    ++ map closed (groupsBy c i (currentInstructions st) (map build rest)).
Proof.
  revert i st. induction rest as [|x r IH]; intros i st Hlen.
  - cbn. now rewrite app_nil_r.
  - cbn [forEach map groupsBy length] in *.
    rewrite IH by lia. unfold transferStep, transferCut.
    rewrite (@last_index i r Hlen).
    destruct (js_is_zero (js_rem (Z.of_nat i + 1) c) || isNil (map build r)).
    + rewrite finalizeTransaction_push. cbn [transactions currentInstructions map].
      now rewrite <- app_assoc.
    + reflexivity.
Qed.

End TransferLoop.

Lemma requests_sol_loop (config : BulkSol.IBulkSolTransferConfig)
      (a : Z) (rs : list string) :
  map (fun r => createSolTransferInstruction
                  (BulkSol.sender config) (PublicKey_new r) a) rs
  = map (solTransfer config)
        (map (fun r => {| recipient := r; amount := a;
                          associatedTokenAccount := None |}) rs).
Proof. now rewrite map_map. Qed.

Lemma requests_spl_loop (config : BulkSpl.IBulkSplTransferConfig)
      (a : Z) (rs : list string) :
  map (fun r => createSplTransferInstructionByOwners
                  (BulkSpl.mint config) (BulkSpl.sender config) (PublicKey_new r) a) rs
  = map (splTransfer config)
        (map (fun r => {| recipient := r; amount := a;
                          associatedTokenAccount := None |}) rs).
Proof. now rewrite map_map. Qed.

(** [generateBulkSolTransactions] groups the operations of the requests its
    configuration denotes, and throws when it denotes none. *)
Lemma generateBulkSolTransactions_groups (config : BulkSol.IBulkSolTransferConfig) :
  BulkSol.generateBulkSolTransactions config
  = match solRequests config with
    | Some reqs =>
        inr (map (withMemo (solMemo config))
                 (groupsBy (solCapacity config) 0 [] (map (solTransfer config) reqs)))
    | None =>
        inl (Error "Either transfers or (recipients + fixedAmount) must be provided")
    end.
Proof.
  unfold BulkSol.generateBulkSolTransactions, solRequests, requestsOf.
  destruct (BulkSol.fixedAmount config) as [a|];
    [destruct (BulkSol.recipients config) as [rs|]|];
    [|destruct (BulkSol.transfers config) as [ts|]; [|reflexivity]..].
  - f_equal. rewrite <- requests_sol_loop.
    exact (@transfer_loop _
             (fun r => createSolTransferInstruction
                         (BulkSol.sender config) (PublicKey_new r) a)
             _ _ (solCapacity config) _ rs 0%nat emptyBatch eq_refl).
  - f_equal.
    exact (@transfer_loop _ (solTransfer config)
             _ _ (solCapacity config) _ ts 0%nat emptyBatch eq_refl).
  - f_equal.
    exact (@transfer_loop _ (solTransfer config)
             _ _ (solCapacity config) _ ts 0%nat emptyBatch eq_refl).
Qed.

(** The same for [generateBulkSplTransactions]. *)
Lemma generateBulkSplTransactions_groups (config : BulkSpl.IBulkSplTransferConfig) :
  BulkSpl.generateBulkSplTransactions config
  = match splRequests config with
    | Some reqs =>
        inr (map (withMemo (splMemo config))
                 (groupsBy (splCapacity config) 0 [] (map (splTransfer config) reqs)))
    | None =>
        inl (Error "Either transfers or (recipients + fixedAmount) must be provided")
    end.
Proof.
  unfold BulkSpl.generateBulkSplTransactions, splRequests, requestsOf.
  destruct (BulkSpl.fixedAmount config) as [a|];
    [destruct (BulkSpl.recipients config) as [rs|]|];
    [|destruct (BulkSpl.transfers config) as [ts|]; [|reflexivity]..].
  - f_equal. rewrite <- requests_spl_loop.
    exact (@transfer_loop _
             (fun r => createSplTransferInstructionByOwners
                         (BulkSpl.mint config) (BulkSpl.sender config)
                         (PublicKey_new r) a)
             _ _ (splCapacity config) _ rs 0%nat emptyBatch eq_refl).
  - f_equal.
    exact (@transfer_loop _ (splTransfer config)
             _ _ (splCapacity config) _ ts 0%nat emptyBatch eq_refl).
  - f_equal.
    exact (@transfer_loop _ (splTransfer config)
             _ _ (splCapacity config) _ ts 0%nat emptyBatch eq_refl).
Qed.

(** ** The account-creation loop computes [chunkAcc] *)

Section CreationLoop.

Variable connection : Connection.
Variables (mint payer : PublicKey) (c : Z) (len : nat).

Local Abbreviation step := (BulkSpl.accountCreationStep connection mint payer c len).
Local Abbreviation settle := (flushWhenDue c len).

Lemma step_missing (i : nat) (r : string) (st : Batch) :
  connection (lookupAddress mint r) = Resolves None ->
  step i r st
  = ([lookupAddress mint r], inr (settle i (push (provisioning payer mint r) st))).
Proof.
  intros Hlookup. unfold BulkSpl.accountCreationStep, getAccountInfo.
  fold (lookupAddress mint r). rewrite Hlookup. reflexivity.
Qed.

Lemma step_present (i : nat) (r : string) (st : Batch) (info : AccountInfo) :
  connection (lookupAddress mint r) = Resolves (Some info) ->
  step i r st = ([lookupAddress mint r], inr (settle i st)).
Proof.
  intros Hlookup. unfold BulkSpl.accountCreationStep, getAccountInfo.
  fold (lookupAddress mint r). rewrite Hlookup. reflexivity.
Qed.

Lemma step_rejected (i : nat) (r : string) (st : Batch) (e : JsError) :
  connection (lookupAddress mint r) = Rejects e ->
  step i r st = ([lookupAddress mint r], inl e).
Proof.
  intros Hlookup. unfold BulkSpl.accountCreationStep, getAccountInfo.
  fold (lookupAddress mint r). rewrite Hlookup. reflexivity.
Qed.

(** When the open group is below capacity and more recipients follow, the
    body leaves the batch as it is. *)
Lemma flushWhenDue_open (i : nat) (st : Batch) (r : list string) :
  (i + S (length r) = len)%nat ->
  r <> [] ->
  Z.of_nat (length (currentInstructions st)) < c ->
  settle i st = st.
Proof.
  intros Hlen Hr Hlt. unfold flushWhenDue.
  replace (Z.of_nat (length (currentInstructions st)) >=? c) with false
    by (symmetry; rewrite Z.geb_leb; apply Z.leb_gt; lia).
  replace (Z.of_nat i =? Z.of_nat len - 1) with false; [reflexivity|].
  symmetry. apply Z.eqb_neq. destruct r; [contradiction|cbn in Hlen; lia].
Qed.

Lemma flushWhenDue_empty (i : nat) (st : Batch) :
  currentInstructions st = [] -> settle i st = st.
Proof.
  intros Hcur. unfold flushWhenDue. rewrite Hcur. cbn [length Z.of_nat Z.ltb Z.compare].
  now destruct ((0 >=? c) || (Z.of_nat i =? Z.of_nat len - 1)).
Qed.

Lemma flushWhenDue_due (i : nat) (st : Batch) (r : list string) :
  (i + S (length r) = len)%nat ->
  currentInstructions st <> [] ->
  c <= Z.of_nat (length (currentInstructions st)) \/ r = [] ->
  settle i st = emit st.
Proof.
  intros Hlen Hcur Hdue. unfold flushWhenDue.
  replace ((Z.of_nat (length (currentInstructions st)) >=? c)
           || (Z.of_nat i =? Z.of_nat len - 1)) with true.
  - destruct (currentInstructions st); [contradiction|reflexivity].
  - symmetry. apply orb_true_iff. destruct Hdue as [Hge| ->].
    + left. rewrite Z.geb_leb. apply Z.leb_le. lia.
    + right. apply Z.eqb_eq. cbn in Hlen. lia.
Qed.

Lemma chunkAcc_last (A : Type) (cur : list A) (x : A) :
  chunkAcc c (cur ++ [x]) [] = [cur ++ [x]].
Proof. now destruct cur. Qed.

Lemma creation_loop (rest : list string) (i : nat) (st : Batch) :
  (i + length rest = len)%nat ->
  Forall (lookupCompletes connection mint) rest ->
  currentInstructions st = [] \/ Z.of_nat (length (currentInstructions st)) < c ->
  rest <> [] \/ currentInstructions st = [] ->
  forEachAsync step i rest st
  = (map (lookupAddress mint) rest,
     inr {| transactions :=
              transactions st
              ++ chunkAcc c (currentInstructions st)
                   (map (provisioning payer mint)
                        (filter (isMissing connection mint) rest));
            currentInstructions := [] |}).
Proof.
  revert i st. induction rest as [|x r IH]; intros i st Hlen Hall Hinv Hopen.
  - destruct Hopen as [Hne|Hcur]; [contradiction|].
    destruct st as [txs cur]. cbn in Hcur |- *. subst cur. now rewrite app_nil_r.
  - apply Forall_cons_iff in Hall as [[info Hinfo] Hall'].
    cbn [forEachAsync map filter length] in Hlen |- *.
    unfold isMissing at 1. rewrite Hinfo.
    destruct info as [info|].
    + rewrite (step_present _ _ Hinfo). cbn [bind].
      destruct (currentInstructions st) as [|ix cur] eqn:Hcur.
      * rewrite flushWhenDue_empty by assumption.
        rewrite IH by (auto; lia). rewrite Hcur. reflexivity.
      * destruct Hinv as [Hnil|Hlt]; [discriminate|].
        destruct r as [|y r'].
        -- rewrite (@flushWhenDue_due i st []); [|assumption|rewrite Hcur; discriminate|now right].
           cbn [forEachAsync ret filter map chunkAcc app]. unfold emit, buildTransaction.
           rewrite Hcur. reflexivity.
        -- rewrite (@flushWhenDue_open i st (y :: r'));
             [|assumption|discriminate|rewrite Hcur; assumption].
           rewrite IH; [rewrite Hcur; reflexivity|cbn in Hlen |- *; lia|assumption| |left; discriminate].
           right. rewrite Hcur. assumption.
    + rewrite (step_missing _ _ Hinfo). cbn [bind map chunkAcc].
      set (p := provisioning payer mint x).
      set (st1 := push p st).
      assert (Hcur1 : currentInstructions st1 = currentInstructions st ++ [p])
        by reflexivity.
      assert (Hne : currentInstructions st1 <> [])
        by (rewrite Hcur1; now destruct (currentInstructions st)).
      rewrite Z.geb_leb.
      destruct (Z.leb_spec c (Z.of_nat (length (currentInstructions st ++ [p]))))
        as [Hge|Hlt].
      * rewrite (@flushWhenDue_due i st1 r); [|assumption|assumption|left; now rewrite Hcur1].
        rewrite IH; [|lia|assumption|now left|now right].
        cbn. now rewrite <- app_assoc.
      * destruct r as [|y r'].
        -- rewrite (@flushWhenDue_due i st1 []); [|assumption|assumption|now right].
           cbn [forEachAsync ret filter map]. rewrite chunkAcc_last. reflexivity.
        -- rewrite (@flushWhenDue_open i st1 (y :: r'));
             [|assumption|discriminate|now rewrite Hcur1].
           rewrite IH; [reflexivity|cbn in Hlen |- *; lia|assumption| |left; discriminate].
           right. now rewrite Hcur1.
Qed.

(** A lookup that is rejected rejects the loop, with the reason of the first
    rejected lookup, and no lookup is issued after it. *)
Lemma creation_loop_rejected (rest : list string) (i : nat) (st : Batch) :
  Exists (fun r => ~ lookupCompletes connection mint r) rest ->
  exists (r : string) (e : JsError) (before after : list string),
    rest = before ++ r :: after
    /\ Forall (lookupCompletes connection mint) before
    /\ connection (lookupAddress mint r) = Rejects e
    /\ forEachAsync step i rest st
       = (map (lookupAddress mint) (before ++ [r]), inl e).
Proof.
  revert i st. induction rest as [|x r IH]; intros i st Hex.
  - inversion Hex.
  - cbn [forEachAsync].
    destruct (connection (lookupAddress mint x)) as [info|e] eqn:Hlookup.
    + assert (Hx : lookupCompletes connection mint x) by (now exists info).
      apply Exists_cons in Hex as [Hbad|Hex]; [contradiction|].
      assert (Hstep : exists st', step i x st = ([lookupAddress mint x], inr st')).
      { destruct info as [info|]; eexists;
          [apply (step_present _ _ Hlookup)|apply (step_missing _ _ Hlookup)]. }
      destruct Hstep as [st' ->]. cbn [bind].
      destruct (IH (S i) st' Hex) as (r0 & e & before & after & -> & Hbefore & Hrej & ->).
      exists r0, e, (x :: before), after. repeat split; auto.
    + exists x, e, [], r. repeat split; auto.
      rewrite (step_rejected _ _ Hlookup). reflexivity.
Qed.

End CreationLoop.

(** ** From sizes to the packing predicate *)

Lemma packed_of_sizes (C n : nat) (txs : list Transaction) :
  (1 <= C)%nat ->
  map contentCount txs = bundleSizes C n ->
  PackedEvery C n txs.
Proof.
  intros HC Hsizes. unfold PackedEvery, cutPositions. rewrite Hsizes.
  repeat split.
  - rewrite <- (length_map contentCount), Hsizes. now apply bundleSizes_length.
  - intros k tx Hnth. rewrite <- (length_map contentCount), Hsizes.
    apply (bundleSizes_nth HC). rewrite <- Hsizes.
    now apply map_nth_error.
  - intros Hin. apply (bundleSizes_cuts HC) in Hin. tauto.
  - intros Hcut. apply (bundleSizes_cuts HC). split; [lia|tauto].
Qed.

Lemma content_of_plain (g : list TransactionInstruction) :
  Forall (fun ix => isMemo ix = false) g ->
  contentOperations g = g /\ memoOperations g = [].
Proof.
  unfold contentOperations, memoOperations.
  induction 1 as [|ix g Hix _ [IHc IHm]]; cbn [filter]; [now split|].
  rewrite Hix. cbn [negb]. now rewrite IHc, IHm.
Qed.

(** Greedy chunks of operations that are not memos hold no memo, whatever
    the capacity. *)
Lemma chunks_plain (c : Z) (l : list TransactionInstruction) :
  Forall (fun ix => isMemo ix = false) l ->
  Forall (fun tx => memoOperations tx = [] /\ contentOperations tx = tx)
         (chunksOf c l).
Proof.
  intros Hl. unfold chunksOf.
  assert (Hgs : Forall (Forall (fun ix => isMemo ix = false)) (chunkAcc c [] l))
    by (apply Forall_concat; now rewrite chunkAcc_concat).
  eapply Forall_impl; [|exact Hgs].
  intros g Hg. destruct (content_of_plain Hg). now split.
Qed.

Lemma chunks_packed (C : nat) (l : list TransactionInstruction) :
  (1 <= C)%nat ->
  Forall (fun ix => isMemo ix = false) l ->
  PackedEvery C (length l) (chunksOf (Z.of_nat C) l).
Proof.
  intros HC Hl. pose proof (chunks_plain (Z.of_nat C) Hl) as Hplain.
  apply packed_of_sizes; [assumption|].
  transitivity (map (@length _) (chunkAcc (Z.of_nat C) [] l)).
  - apply map_ext_in. intros g Hg. rewrite Forall_forall in Hplain.
    unfold contentCount. now rewrite (proj2 (Hplain g Hg)).
  - apply (chunkAcc_sizes HC [] l). cbn. lia.
Qed.

(** ** Transactions that close with a memo *)

Section WithMemo.

Variable X : Type.
Variable build : X -> TransactionInstruction.
Variable memo : TransactionInstruction.
Hypothesis build_content : forall x, isMemo (build x) = false.
Hypothesis memo_is_memo : isMemo memo = true.

Local Abbreviation closed := (withMemo memo).

Lemma content_of_group (g : list TransactionInstruction) :
  Forall (fun ix => isMemo ix = false) g ->
  contentOperations (closed g) = g /\ memoOperations (closed g) = [memo].
Proof.
  unfold withMemo, contentOperations, memoOperations.
  induction 1 as [|ix g Hix _ [IHc IHm]]; cbn [app filter].
  - now rewrite memo_is_memo.
  - rewrite Hix. cbn [negb]. now rewrite IHc, IHm.
Qed.

Lemma groups_of_content (gs : list (list TransactionInstruction)) (l : list X) :
  concat gs = map build l \/ concat gs = [] ->
  Forall (Forall (fun ix => isMemo ix = false)) gs.
Proof.
  intros Hconcat. apply Forall_concat.
  destruct Hconcat as [-> | ->]; [|constructor].
  apply Forall_map, Forall_forall. intros x _. apply build_content.
Qed.

Lemma contents_of_groups (gs : list (list TransactionInstruction)) :
  Forall (Forall (fun ix => isMemo ix = false)) gs ->
  map contentOperations (map closed gs) = gs.
Proof.
  induction 1 as [|g gs Hg _ IH]; [reflexivity|].
  cbn [map]. rewrite IH. now rewrite (proj1 (content_of_group Hg)).
Qed.

Lemma groups_end_with_memo (gs : list (list TransactionInstruction)) :
  Forall (Forall (fun ix => isMemo ix = false)) gs ->
  Forall (fun g => g <> []) gs ->
  Forall (EndsWithMemo memo) (map closed gs).
Proof.
  induction 1 as [|g gs Hg _ IH]; intros Hne; [constructor|].
  apply Forall_cons_iff in Hne as [Hgne Hne]. cbn [map].
  constructor; [|now apply IH].
  destruct (content_of_group Hg) as [Hc Hm].
  unfold EndsWithMemo. now rewrite Hc, Hm.
Qed.

(** All that the claims need of the transactions a transfer loop returns. *)
Lemma grouped_transfers (c : Z) (l : list X) :
  let txs := map closed (groupsBy c 0 [] (map build l)) in
  map contentOperations txs = groupsBy c 0 [] (map build l)
  /\ concat (map contentOperations txs) = map build l
  /\ Forall (EndsWithMemo memo) txs.
Proof.
  intros txs.
  assert (Hgs : Forall (Forall (fun ix => isMemo ix = false))
                       (groupsBy c 0 [] (map build l))).
  { apply (@groups_of_content _ l). rewrite groupsBy_concat.
    destruct (map build l); [now right|now left]. }
  assert (Hcontents : map contentOperations txs = groupsBy c 0 [] (map build l))
    by (now apply contents_of_groups).
  repeat split.
  - assumption.
  - rewrite Hcontents, groupsBy_concat. now destruct (map build l).
  - apply groups_end_with_memo; [assumption|apply groupsBy_nonempty].
Qed.

Lemma grouped_transfers_packed (C : nat) (l : list X) :
  (1 <= C)%nat ->
  PackedEvery C (length l)
              (map closed (groupsBy (Z.of_nat C) 0 [] (map build l))).
Proof.
  intros HC.
  destruct (grouped_transfers (Z.of_nat C) l) as (Hcontents & _ & _).
  assert (Hsizes : map contentCount
                       (map closed (groupsBy (Z.of_nat C) 0 [] (map build l)))
                   = bundleSizes C (length l)).
  { unfold contentCount. rewrite <- (map_map contentOperations (@length _)).
    rewrite Hcontents, groupsBy_chunkAcc; [|lia|apply Z.mod_0_l; lia|now right].
    rewrite (chunkAcc_sizes HC) by (cbn; lia).
    cbn [length]. now rewrite length_map. }
  now apply packed_of_sizes.
Qed.

Lemma grouped_transfers_bound (C : nat) (l : list X) (tx : Transaction) :
  (1 <= C)%nat ->
  In tx (map closed (groupsBy (Z.of_nat C) 0 [] (map build l))) ->
  (length tx <= C + 1)%nat.
Proof.
  intros HC Hin. apply in_map_iff in Hin as (g & <- & Hg).
  unfold withMemo. rewrite length_app. cbn [length].
  rewrite groupsBy_chunkAcc in Hg; [|lia|apply Z.mod_0_l; lia|now right].
  assert (Hsize : In (length g) (bundleSizes C (0 + length (map build l)))).
  { rewrite <- (chunkAcc_sizes HC []) by (cbn; lia). now apply in_map. }
  apply (bundleSizes_bound HC) in Hsize. lia.
Qed.

Lemma grouped_transfers_marked (c : Z) (l : list X) :
  let txs := map closed (groupsBy c 0 [] (map build l)) in
  (l = [] -> txs = [])
  /\ (l <> [] -> txs <> [])
  /\ forall tx,
      In tx txs ->
      EndsWithMemo memo tx
      /\ forall C, (1 <= C)%nat -> c = Z.of_nat C -> (length tx <= C + 1)%nat.
Proof.
  intros txs. destruct (grouped_transfers c l) as (_ & Hconcat & Hmemo).
  fold txs in Hconcat, Hmemo. split; [|split].
  - now intros ->.
  - intros Hne Hnil. rewrite Hnil in Hconcat.
    destruct l; [contradiction|discriminate].
  - intros tx Hin. split.
    + rewrite Forall_forall in Hmemo. now apply Hmemo.
    + intros C HC ->. now apply (@grouped_transfers_bound C l).
Qed.

End WithMemo.

(** ** The account-creation entry point and the orchestrator *)


Lemma generateTokenAccountCreationTransactions_chunks
      (connection : Connection) (mint payer : PublicKey)
      (recipients : list string) (instructionsPerTx : option Z) :
  Forall (lookupCompletes connection mint) recipients ->
  BulkSpl.generateTokenAccountCreationTransactions
    connection mint payer recipients instructionsPerTx
  = (map (lookupAddress mint) recipients,
     inr (chunksOf
            (orDefault instructionsPerTx
                       BulkSpl.DEFAULT_INSTRUCTIONS_PER_TX_ACCOUNT_CREATION)
            (map (provisioning payer mint)
                 (filter (isMissing connection mint) recipients)))).
Proof.
  intros Hall. unfold BulkSpl.generateTokenAccountCreationTransactions.
  rewrite creation_loop; [|reflexivity|assumption|now left|now right].
  cbn. now rewrite app_nil_r.
Qed.

Lemma generateTokenAccountCreationTransactions_rejected
      (connection : Connection) (mint payer : PublicKey)
      (recipients : list string) (instructionsPerTx : option Z) :
  Exists (fun r => ~ lookupCompletes connection mint r) recipients ->
  exists (r : string) (e : JsError) (before after : list string),
    recipients = before ++ r :: after
    /\ Forall (lookupCompletes connection mint) before
    /\ connection (lookupAddress mint r) = Rejects e
    /\ BulkSpl.generateTokenAccountCreationTransactions
         connection mint payer recipients instructionsPerTx
       = (map (lookupAddress mint) (before ++ [r]), inl e).
Proof.
  intros Hex. unfold BulkSpl.generateTokenAccountCreationTransactions.
  destruct (@creation_loop_rejected
              connection mint payer
              (orDefault instructionsPerTx
                         BulkSpl.DEFAULT_INSTRUCTIONS_PER_TX_ACCOUNT_CREATION)
              (length recipients) recipients 0%nat emptyBatch Hex)
    as (r & e & before & after & Hsplit & Hbefore & Hrej & Hloop).
  exists r, e, before, after. rewrite Hloop. auto.
Qed.

Lemma rejected_not_complete (connection : Connection) (mint : PublicKey)
      (r : string) (e : JsError) :
  connection (lookupAddress mint r) = Rejects e ->
  ~ lookupCompletes connection mint r.
Proof. intros Hrej [info Hinfo]. congruence. Qed.

(** The first statement of the orchestrator, "Determine recipient list". *)
Lemma derived_recipientList (config : BulkSpl.IBulkSplTransferConfig) :
  match BulkSpl.recipients config with
  | Some recipients => ret recipients
  | None =>
      match BulkSpl.transfers config with
      | Some transfers => ret (map recipient transfers)
      | None => throw (Error "Either transfers or recipients must be provided")
      end
  end
  = match recipientListOf config with
    | Some recipientList => ret recipientList
    | None => throw (Error "Either transfers or recipients must be provided")
    end.
Proof.
  unfold recipientListOf.
  destruct (BulkSpl.recipients config); [reflexivity|].
  now destruct (BulkSpl.transfers config).
Qed.

(** The orchestrator, when it derives a recipient list and every lookup
    completes: all lookups are issued, then the transfer entry point decides. *)
Lemma generateCompleteBulkSplTransactions_completes
      (connection : Connection) (config : BulkSpl.IBulkSplTransferConfig)
      (recipientList : list string) :
  recipientListOf config = Some recipientList ->
  Forall (lookupCompletes connection (BulkSpl.mint config)) recipientList ->
  BulkSpl.generateCompleteBulkSplTransactions connection config
  = (map (lookupAddress (BulkSpl.mint config)) recipientList,
     match BulkSpl.generateBulkSplTransactions config with
     | inl e => inl e
     | inr transferTxs =>
         inr {| BulkSpl.accountCreationTxs :=
                  chunksOf
                    (orDefault (BulkSpl.instructionsPerTx config)
                               BulkSpl.DEFAULT_INSTRUCTIONS_PER_TX_ACCOUNT_CREATION)
                    (map (provisioning (BulkSpl.sender config) (BulkSpl.mint config))
                         (filter (isMissing connection (BulkSpl.mint config))
                                 recipientList));
                BulkSpl.transferTxs := transferTxs |}
     end).
Proof.
  intros Hlist Hall. unfold BulkSpl.generateCompleteBulkSplTransactions.
  rewrite derived_recipientList, Hlist. cbn [bind ret app].
  rewrite generateTokenAccountCreationTransactions_chunks by assumption.
  cbn [app]. unfold liftSync.
  destruct (BulkSpl.generateBulkSplTransactions config); cbn; now rewrite app_nil_r.
Qed.

(** ** The transfer entry points *)

Lemma solTransfer_content (config : BulkSol.IBulkSolTransferConfig) (t : ITransfer) :
  isMemo (solTransfer config t) = false.
Proof. reflexivity. Qed.

Lemma splTransfer_content (config : BulkSpl.IBulkSplTransferConfig) (t : ITransfer) :
  isMemo (splTransfer config t) = false.
Proof. reflexivity. Qed.

(** C1. With a capacity [C >= 1], [generateBulkSplTransactions] and
    [generateBulkSolTransactions] return [ceil(N/C)] transactions for [N]
    requests (none for [N = 0]); every transaction but the last holds [C]
    transfer operations and the last holds [N mod C], or [C] when that is
    zero; a transaction closes after input index [i] exactly when
    [(i+1) mod C = 0] or [i] is the last index. *)
Theorem transfer_packing_counts (C : nat) :
  (1 <= C)%nat ->
  (forall config reqs,
      splCapacity config = Z.of_nat C ->
      splRequests config = Some reqs ->
      exists txs,
        BulkSpl.generateBulkSplTransactions config = inr txs
        /\ PackedEvery C (length reqs) txs)
  /\ (forall config reqs,
         solCapacity config = Z.of_nat C ->
         solRequests config = Some reqs ->
         exists txs,
           BulkSol.generateBulkSolTransactions config = inr txs
           /\ PackedEvery C (length reqs) txs).
Proof.
  intros HC. split; intros config reqs Hcap Hreqs.
  - rewrite generateBulkSplTransactions_groups, Hreqs, Hcap.
    eexists. split; [reflexivity|].
    now apply grouped_transfers_packed.
  - rewrite generateBulkSolTransactions_groups, Hreqs, Hcap.
    eexists. split; [reflexivity|].
    now apply grouped_transfers_packed.
Qed.

Lemma transfer_packing_counts_witness :
  (exists txs,
      BulkSpl.generateBulkSplTransactions
        (Inputs.splConfig None (Some ["A"; "B"; "C"; "D"; "E"]) (Some 5) (Some 2))
      = inr txs
      /\ PackedEvery 2 5 txs)
  /\ (exists txs,
         BulkSol.generateBulkSolTransactions
           (Inputs.solConfig
              (Some [Inputs.request "A" 10; Inputs.request "B" 20]) None None None)
         = inr txs
         /\ PackedEvery 18 2 txs).
Proof.
  split.
  - exact (proj1 (@transfer_packing_counts 2 ltac:(lia))
                  (Inputs.splConfig None (Some ["A"; "B"; "C"; "D"; "E"]) (Some 5) (Some 2))
                  _ eq_refl eq_refl).
  - exact (proj2 (@transfer_packing_counts 18 ltac:(lia))
                  (Inputs.solConfig
                     (Some [Inputs.request "A" 10; Inputs.request "B" 20])
                     None None None)
                  _ eq_refl eq_refl).
Defined.

(** C2, as the claim states it, fails: with a capacity of zero three
    recipients come back as one transaction of four operations, more than
    the capacity plus one. *)
Lemma capacity_bound_counterexample :
  BulkSpl.generateBulkSplTransactions
    (Inputs.splConfig None (Some ["A"; "B"; "C"]) (Some 5) (Some 0))
  = inr [[Inputs.splTo "A" 5; Inputs.splTo "B" 5; Inputs.splTo "C" 5;
          Inputs.splMemo]]
  /\ splCapacity (Inputs.splConfig None (Some ["A"; "B"; "C"]) (Some 5) (Some 0)) + 1
     < Z.of_nat (length [Inputs.splTo "A" 5; Inputs.splTo "B" 5;
                         Inputs.splTo "C" 5; Inputs.splMemo]).
Proof. split; reflexivity. Qed.

(** C2. For a non-empty input every transaction that the transfer entry
    points return is its transfer operations followed by the memo: one memo,
    in last position, after at least one transfer; with a capacity [C >= 1] a
    transaction holds at most [C + 1] operations.  For an empty input no
    transaction is returned. *)
Theorem transfer_transactions_end_with_memo :
  (forall config reqs,
      splRequests config = Some reqs ->
      exists txs,
        BulkSpl.generateBulkSplTransactions config = inr txs
        /\ (reqs = [] -> txs = [])
        /\ (reqs <> [] -> txs <> [])
        /\ forall tx,
            In tx txs ->
            EndsWithMemo (splMemo config) tx
            /\ forall C, (1 <= C)%nat -> splCapacity config = Z.of_nat C ->
                         (length tx <= C + 1)%nat)
  /\ (forall config reqs,
         solRequests config = Some reqs ->
         exists txs,
           BulkSol.generateBulkSolTransactions config = inr txs
           /\ (reqs = [] -> txs = [])
           /\ (reqs <> [] -> txs <> [])
           /\ forall tx,
               In tx txs ->
               EndsWithMemo (solMemo config) tx
               /\ forall C, (1 <= C)%nat -> solCapacity config = Z.of_nat C ->
                            (length tx <= C + 1)%nat).
Proof.
  split; intros config reqs Hreqs.
  - rewrite generateBulkSplTransactions_groups, Hreqs.
    eexists. split; [reflexivity|].
    now apply (grouped_transfers_marked (splTransfer config) (splMemo config)).
  - rewrite generateBulkSolTransactions_groups, Hreqs.
    eexists. split; [reflexivity|].
    now apply (grouped_transfers_marked (solTransfer config) (solMemo config)).
Qed.

Lemma transfer_transactions_end_with_memo_witness :
  (exists txs,
      BulkSpl.generateBulkSplTransactions
        (Inputs.splConfig None (Some ["A"; "B"; "C"]) (Some 5) (Some 2))
      = inr txs
      /\ txs <> []
      /\ forall tx,
          In tx txs -> EndsWithMemo Inputs.splMemo tx /\ (length tx <= 3)%nat)
  /\ (exists txs,
         BulkSol.generateBulkSolTransactions
           (Inputs.solConfig (Some []) None None None)
         = inr txs
         /\ txs = []).
Proof.
  split.
  - destruct (proj1 transfer_transactions_end_with_memo
                    (Inputs.splConfig None (Some ["A"; "B"; "C"]) (Some 5) (Some 2))
                    _ eq_refl)
      as (txs & Hrun & _ & Hsome & Heach).
    exists txs. split; [assumption|]. split; [apply Hsome; discriminate|].
    intros tx Hin. destruct (Heach tx Hin) as [Hmemo Hbound].
    split; [exact Hmemo|exact (Hbound 2%nat ltac:(lia) eq_refl)].
  - destruct (proj2 transfer_transactions_end_with_memo
                    (Inputs.solConfig (Some []) None None None) _ eq_refl)
      as (txs & Hrun & Hnone & _).
    exists txs. split; [assumption|]. now apply Hnone.
Defined.

(** C7. The transfer operations of the returned transactions, read in order
    and without the memos, are the inputs mapped one to one through the
    builder: the recipients with the shared amount in the first mode, the
    transfers with their own amounts in the second.  Nothing is dropped,
    merged or moved, whatever the capacity. *)
Theorem transfer_operations_follow_input :
  (forall config rs a,
      BulkSpl.recipients config = Some rs ->
      BulkSpl.fixedAmount config = Some a ->
      exists txs,
        BulkSpl.generateBulkSplTransactions config = inr txs
        /\ concat (map contentOperations txs)
           = map (fun r => createSplTransferInstructionByOwners
                             (BulkSpl.mint config) (BulkSpl.sender config)
                             (PublicKey_new r) a) rs)
  /\ (forall config ts,
         BulkSpl.transfers config = Some ts ->
         BulkSpl.recipients config = None \/ BulkSpl.fixedAmount config = None ->
         exists txs,
           BulkSpl.generateBulkSplTransactions config = inr txs
           /\ concat (map contentOperations txs)
              = map (fun t => createSplTransferInstructionByOwners
                                (BulkSpl.mint config) (BulkSpl.sender config)
                                (PublicKey_new (recipient t)) (amount t)) ts)
  /\ (forall config rs a,
         BulkSol.recipients config = Some rs ->
         BulkSol.fixedAmount config = Some a ->
         exists txs,
           BulkSol.generateBulkSolTransactions config = inr txs
           /\ concat (map contentOperations txs)
              = map (fun r => createSolTransferInstruction
                                (BulkSol.sender config) (PublicKey_new r) a) rs)
  /\ (forall config ts,
         BulkSol.transfers config = Some ts ->
         BulkSol.recipients config = None \/ BulkSol.fixedAmount config = None ->
         exists txs,
           BulkSol.generateBulkSolTransactions config = inr txs
           /\ concat (map contentOperations txs)
              = map (fun t => createSolTransferInstruction
                                (BulkSol.sender config)
                                (PublicKey_new (recipient t)) (amount t)) ts).
Proof.
  repeat apply conj.
  - intros config rs a Hrs Ha.
    rewrite generateBulkSplTransactions_groups. unfold splRequests, requestsOf.
    rewrite Hrs, Ha. eexists. split; [reflexivity|].
    destruct (grouped_transfers (splTransfer config) (splMemo config)
                (splTransfer_content config) eq_refl (splCapacity config)
                (map (fun r => {| recipient := r; amount := a;
                                  associatedTokenAccount := None |}) rs))
      as (_ & Hconcat & _).
    etransitivity; [exact Hconcat|]. now rewrite map_map.
  - intros config ts Hts Hmode.
    rewrite generateBulkSplTransactions_groups. unfold splRequests, requestsOf.
    rewrite Hts. eexists. split.
    + destruct Hmode as [-> | ->]; [destruct (BulkSpl.fixedAmount config)|];
        reflexivity.
    + exact (proj1 (proj2 (grouped_transfers
                             (splTransfer config) (splMemo config)
                             (splTransfer_content config) eq_refl
                             (splCapacity config) ts))).
  - intros config rs a Hrs Ha.
    rewrite generateBulkSolTransactions_groups. unfold solRequests, requestsOf.
    rewrite Hrs, Ha. eexists. split; [reflexivity|].
    destruct (grouped_transfers (solTransfer config) (solMemo config)
                (solTransfer_content config) eq_refl (solCapacity config)
                (map (fun r => {| recipient := r; amount := a;
                                  associatedTokenAccount := None |}) rs))
      as (_ & Hconcat & _).
    etransitivity; [exact Hconcat|]. now rewrite map_map.
  - intros config ts Hts Hmode.
    rewrite generateBulkSolTransactions_groups. unfold solRequests, requestsOf.
    rewrite Hts. eexists. split.
    + destruct Hmode as [-> | ->]; [destruct (BulkSol.fixedAmount config)|];
        reflexivity.
    + exact (proj1 (proj2 (grouped_transfers
                             (solTransfer config) (solMemo config)
                             (solTransfer_content config) eq_refl
                             (solCapacity config) ts))).
Qed.

Lemma transfer_operations_follow_input_witness :
  (exists txs,
      BulkSpl.generateBulkSplTransactions
        (Inputs.splConfig
           (Some [Inputs.request "A" 10; Inputs.request "B" 20]) None None None)
      = inr txs
      /\ concat (map contentOperations txs)
         = [Inputs.splTo "A" 10; Inputs.splTo "B" 20])
  /\ (exists txs,
         BulkSol.generateBulkSolTransactions
           (Inputs.solConfig None (Some ["A"; "B"; "C"]) (Some 5) None)
         = inr txs
         /\ concat (map contentOperations txs)
            = [Inputs.solTo "A" 5; Inputs.solTo "B" 5; Inputs.solTo "C" 5]).
Proof.
  split.
  - exact (proj1 (proj2 transfer_operations_follow_input)
                 (Inputs.splConfig
                    (Some [Inputs.request "A" 10; Inputs.request "B" 20])
                    None None None)
                 _ eq_refl (or_introl eq_refl)).
  - exact (proj1 (proj2 (proj2 transfer_operations_follow_input))
                 (Inputs.solConfig None (Some ["A"; "B"; "C"]) (Some 5) None)
                 _ _ eq_refl eq_refl).
Defined.

(** ** Account creation *)

Lemma provisioning_content (payer mint : PublicKey) (rs : list string) :
  Forall (fun ix => isMemo ix = false) (map (provisioning payer mint) rs).
Proof. apply Forall_map, Forall_forall. reflexivity. Qed.

(** C8. When every lookup completes, no transaction returned by
    [generateTokenAccountCreationTransactions] holds a memo; with a capacity
    [C >= 1] and [M] recipients whose account is missing there are
    [ceil(M/C)] transactions of [C] creation instructions each, the last one
    holding the remainder. *)
Theorem account_creation_packing
        (connection : Connection) (mint payer : PublicKey)
        (recipients : list string) (instructionsPerTx : option Z) :
  Forall (lookupCompletes connection mint) recipients ->
  exists txs,
    outcome (BulkSpl.generateTokenAccountCreationTransactions
               connection mint payer recipients instructionsPerTx)
    = inr txs
    /\ Forall (fun tx => memoOperations tx = [] /\ contentOperations tx = tx) txs
    /\ forall C,
        (1 <= C)%nat ->
        orDefault instructionsPerTx
                  BulkSpl.DEFAULT_INSTRUCTIONS_PER_TX_ACCOUNT_CREATION
        = Z.of_nat C ->
        PackedEvery C (length (filter (isMissing connection mint) recipients)) txs.
Proof.
  intros Hall.
  rewrite generateTokenAccountCreationTransactions_chunks by assumption.
  eexists. split; [reflexivity|]. split.
  - apply chunks_plain, provisioning_content.
  - intros C HC ->.
    rewrite <- (length_map (provisioning payer mint)).
    apply chunks_packed; [assumption|apply provisioning_content].
Qed.

Lemma account_creation_packing_witness :
  exists txs,
    outcome (BulkSpl.generateTokenAccountCreationTransactions
               Inputs.allMissing Inputs.mint Inputs.sender
               Inputs.recipients25 None)
    = inr txs
    /\ Forall (fun tx => memoOperations tx = [] /\ contentOperations tx = tx) txs
    /\ PackedEvery 12 25 txs.
Proof.
  destruct (@account_creation_packing
              Inputs.allMissing Inputs.mint Inputs.sender
              Inputs.recipients25 None)
    as (txs & Hrun & Hplain & Hpacked).
  - apply Forall_forall. intros r _. now exists None.
  - exists txs. split; [assumption|]. split; [assumption|].
    apply (Hpacked 12%nat); [lia|reflexivity].
Defined.

(** The spec's example: 25 missing accounts at the default capacity. *)
Example account_creation_25_at_12 :
  exists txs,
    outcome (BulkSpl.generateTokenAccountCreationTransactions
               Inputs.allMissing Inputs.mint Inputs.sender
               Inputs.recipients25 None)
    = inr txs
    /\ map (@length TransactionInstruction) txs = [12; 12; 1]%nat.
Proof. eexists. split; [vm_compute; reflexivity|reflexivity]. Qed.

(** C9. A rejected lookup rejects the orchestration: the call settles to the
    reason of a rejected lookup and returns neither list.  Every call settles
    either to both lists or to an error. *)
Theorem lookup_failure_fails_orchestration
        (connection : Connection) (config : BulkSpl.IBulkSplTransferConfig) :
  (forall recipientList r e,
      recipientListOf config = Some recipientList ->
      In r recipientList ->
      connection (lookupAddress (BulkSpl.mint config) r) = Rejects e ->
      exists r' e',
        In r' recipientList
        /\ connection (lookupAddress (BulkSpl.mint config) r') = Rejects e'
        /\ outcome (BulkSpl.generateCompleteBulkSplTransactions connection config)
           = inl e')
  /\ ((exists e,
          outcome (BulkSpl.generateCompleteBulkSplTransactions connection config)
          = inl e)
      \/ (exists accountCreationTxs transferTxs,
             outcome (BulkSpl.generateCompleteBulkSplTransactions connection config)
             = inr {| BulkSpl.accountCreationTxs := accountCreationTxs;
                      BulkSpl.transferTxs := transferTxs |})).
Proof.
  split.
  - intros recipientList r e Hlist Hin Hrej.
    assert (Hex : Exists (fun r => ~ lookupCompletes connection (BulkSpl.mint config) r)
                         recipientList).
    { apply Exists_exists. exists r. split; [assumption|].
      now apply rejected_not_complete with e. }
    destruct (generateTokenAccountCreationTransactions_rejected
                (BulkSpl.sender config) (BulkSpl.instructionsPerTx config) Hex)
      as (r' & e' & before & after & Hsplit & _ & Hrej' & Hrun).
    exists r', e'. repeat split.
    + rewrite Hsplit. apply in_elt.
    + assumption.
    + unfold BulkSpl.generateCompleteBulkSplTransactions.
      rewrite derived_recipientList, Hlist. cbn [bind ret app].
      rewrite Hrun. reflexivity.
  - destruct (outcome (BulkSpl.generateCompleteBulkSplTransactions connection config))
      as [e|[accountCreationTxs transferTxs]].
    + left. now exists e.
    + right. now exists accountCreationTxs, transferTxs.
Qed.

Lemma lookup_failure_fails_orchestration_witness :
  exists r' e',
    In r' ["A"; "B"; "C"]
    /\ Inputs.failsAt "B" (lookupAddress Inputs.mint r') = Rejects e'
    /\ outcome (BulkSpl.generateCompleteBulkSplTransactions
                  (Inputs.failsAt "B")
                  (Inputs.splConfig None (Some ["A"; "B"; "C"]) (Some 5) None))
       = inl e'.
Proof.
  apply (proj1 (lookup_failure_fails_orchestration
                  (Inputs.failsAt "B")
                  (Inputs.splConfig None (Some ["A"; "B"; "C"]) (Some 5) None))
               ["A"; "B"; "C"] "B" (Error "failed to get info about account")).
  - reflexivity.
  - right. now left.
  - reflexivity.
Defined.

(** The lookups stop at the rejected one: ["C"] is never looked up. *)
Example lookup_failure_stops_lookups :
  BulkSpl.generateCompleteBulkSplTransactions
    (Inputs.failsAt "B")
    (Inputs.splConfig None (Some ["A"; "B"; "C"]) (Some 5) None)
  = ([lookupAddress Inputs.mint "A"; lookupAddress Inputs.mint "B"],
     inl (Error "failed to get info about account")).
Proof. reflexivity. Qed.

(** ** Capacities *)




(** C4, as the claim states it, fails: there is one [instructionsPerTx]
    option.  Left unset, two recipients are provisioned in one transaction and
    paid in one transaction; set to one, both phases cut after every
    instruction; and no setting cuts the transfers after every instruction
    while the provisioning keeps its one transaction. *)
Lemma shared_capacity_counterexample :
  outcome (BulkSpl.generateCompleteBulkSplTransactions
             Inputs.allMissing
             (Inputs.splConfig None (Some ["A"; "B"]) (Some 5) None))
  = inr {| BulkSpl.accountCreationTxs := [[Inputs.create "A"; Inputs.create "B"]];
           BulkSpl.transferTxs :=
             [[Inputs.splTo "A" 5; Inputs.splTo "B" 5; Inputs.splMemo]] |}
  /\ outcome (BulkSpl.generateCompleteBulkSplTransactions
                Inputs.allMissing
                (Inputs.splConfig None (Some ["A"; "B"]) (Some 5) (Some 1)))
     = inr {| BulkSpl.accountCreationTxs :=
                [[Inputs.create "A"]; [Inputs.create "B"]];
              BulkSpl.transferTxs :=
                [[Inputs.splTo "A" 5; Inputs.splMemo];
                 [Inputs.splTo "B" 5; Inputs.splMemo]] |}
  /\ (forall instructionsPerTx result,
         outcome (BulkSpl.generateCompleteBulkSplTransactions
                    Inputs.allMissing
                    (Inputs.splConfig None (Some ["A"; "B"]) (Some 5)
                                       instructionsPerTx))
         = inr result ->
         BulkSpl.transferTxs result
         = [[Inputs.splTo "A" 5; Inputs.splMemo];
            [Inputs.splTo "B" 5; Inputs.splMemo]] ->
         BulkSpl.accountCreationTxs result
         <> [[Inputs.create "A"; Inputs.create "B"]]).
Proof.
  split; [reflexivity|]. split; [reflexivity|].
  intros [k|] result Hrun Htransfers Haccounts.
  - rewrite (@generateCompleteBulkSplTransactions_completes
               Inputs.allMissing
               (Inputs.splConfig None (Some ["A"; "B"]) (Some 5) (Some k))
               ["A"; "B"] eq_refl)
      in Hrun by (repeat constructor; eexists; reflexivity).
    rewrite generateBulkSplTransactions_groups in Hrun.
    cbn in Hrun. injection Hrun as <-.
    cbn in Htransfers, Haccounts.
    rewrite !Z.geb_leb in Haccounts.
    destruct (k <=? 1) eqn:Hgt; [congruence|].
    apply Z.leb_gt in Hgt.
    assert (Hcut : js_is_zero (js_rem 1 k) = false).
    { unfold js_rem. destruct (Z.eqb_spec k 0); [lia|].
      cbn [js_is_zero]. rewrite Z.rem_small by lia. reflexivity. }
    rewrite Hcut, orb_true_r in Htransfers. cbn in Htransfers. congruence.
  - vm_compute in Hrun. injection Hrun as <-. vm_compute in Htransfers. congruence.
Qed.

(** C4, amended.  The orchestrator packs both phases from the one
    [instructionsPerTx] option of its configuration: left unset, provisioning
    is packed at 12 and transfers at 18; set to [C >= 1], both are packed at
    [C]. *)
Theorem capacity_defaults_and_shared_option
        (connection : Connection) (config : BulkSpl.IBulkSplTransferConfig)
        (recipientList : list string) (reqs : list ITransfer) :
  recipientListOf config = Some recipientList ->
  splRequests config = Some reqs ->
  Forall (lookupCompletes connection (BulkSpl.mint config)) recipientList ->
  exists result,
    outcome (BulkSpl.generateCompleteBulkSplTransactions connection config)
    = inr result
    /\ (BulkSpl.instructionsPerTx config = None ->
        PackedEvery 12 (length (filter (isMissing connection (BulkSpl.mint config))
                                       recipientList))
                    (BulkSpl.accountCreationTxs result)
        /\ PackedEvery 18 (length reqs) (BulkSpl.transferTxs result))
    /\ (forall C,
           (1 <= C)%nat ->
           BulkSpl.instructionsPerTx config = Some (Z.of_nat C) ->
           PackedEvery C (length (filter (isMissing connection (BulkSpl.mint config))
                                         recipientList))
                       (BulkSpl.accountCreationTxs result)
           /\ PackedEvery C (length reqs) (BulkSpl.transferTxs result)).
Proof.
  intros Hlist Hreqs Hall.
  rewrite (@generateCompleteBulkSplTransactions_completes
             connection config recipientList Hlist Hall).
  rewrite generateBulkSplTransactions_groups, Hreqs.
  eexists. split; [reflexivity|].
  cbn [BulkSpl.accountCreationTxs BulkSpl.transferTxs]. unfold splCapacity.
  split.
  - intros ->. cbn [orDefault]. split.
    + rewrite <- (length_map (provisioning (BulkSpl.sender config) (BulkSpl.mint config))).
      apply (@chunks_packed 12); [lia|apply provisioning_content].
    + apply (@grouped_transfers_packed _ (splTransfer config) (splMemo config)
               (splTransfer_content config) eq_refl 18). lia.
  - intros C HC ->. cbn [orDefault]. split.
    + rewrite <- (length_map (provisioning (BulkSpl.sender config) (BulkSpl.mint config))).
      apply chunks_packed; [assumption|apply provisioning_content].
    + now apply grouped_transfers_packed.
Qed.

Lemma capacity_defaults_and_shared_option_witness :
  exists result,
    outcome (BulkSpl.generateCompleteBulkSplTransactions
               Inputs.onlyAExists
               (Inputs.splConfig None (Some ["A"; "B"; "C"]) (Some 5) None))
    = inr result
    /\ PackedEvery 12 2 (BulkSpl.accountCreationTxs result)
    /\ PackedEvery 18 3 (BulkSpl.transferTxs result).
Proof.
  destruct (@capacity_defaults_and_shared_option
              Inputs.onlyAExists
              (Inputs.splConfig None (Some ["A"; "B"; "C"]) (Some 5) None)
              ["A"; "B"; "C"] _ eq_refl eq_refl)
    as (result & Hrun & Hdefault & _).
  - repeat constructor; eexists; reflexivity.
  - exists result. split; [assumption|]. now apply Hdefault.
Defined.

(** ** The recipients of the two phases *)

(** When [recipients] comes with [fixedAmount], or [transfers] comes alone,
    the orchestrator provisions the missing accounts of the very recipients
    it pays, in their order. *)
Lemma orchestration_one_recipient_list
      (connection : Connection) (config : BulkSpl.IBulkSplTransferConfig)
      (recipientList : list string) (reqs : list ITransfer) :
  recipientListOf config = Some recipientList ->
  splRequests config = Some reqs ->
  BulkSpl.recipients config = None \/ BulkSpl.fixedAmount config <> None ->
  Forall (lookupCompletes connection (BulkSpl.mint config)) recipientList ->
  exists result,
    outcome (BulkSpl.generateCompleteBulkSplTransactions connection config)
    = inr result
    /\ concat (BulkSpl.accountCreationTxs result)
       = map (provisioning (BulkSpl.sender config) (BulkSpl.mint config))
             (filter (isMissing connection (BulkSpl.mint config)) recipientList)
    /\ concat (map contentOperations (BulkSpl.transferTxs result))
       = map (splTransfer config) reqs
    /\ map recipient reqs = recipientList.
Proof.
  intros Hlist Hreqs Hmode Hall.
  rewrite (@generateCompleteBulkSplTransactions_completes
             connection config recipientList Hlist Hall).
  rewrite generateBulkSplTransactions_groups, Hreqs.
  eexists. split; [reflexivity|].
  cbn [BulkSpl.accountCreationTxs BulkSpl.transferTxs].
  split; [apply chunkAcc_concat|]. split.
  - exact (proj1 (proj2 (grouped_transfers
                           (splTransfer config) (splMemo config)
                           (splTransfer_content config) eq_refl
                           (splCapacity config) reqs))).
  - unfold recipientListOf in Hlist. unfold splRequests, requestsOf in Hreqs.
    destruct (BulkSpl.recipients config) as [rs|].
    + destruct (BulkSpl.fixedAmount config) as [a|];
        [|destruct Hmode; [discriminate|contradiction]].
      injection Hlist as <-. injection Hreqs as <-.
      rewrite map_map. apply map_id.
    + assert (Hts : BulkSpl.transfers config = Some reqs)
        by (destruct (BulkSpl.fixedAmount config); assumption).
      rewrite Hts in Hlist. cbn in Hlist. congruence.
Qed.

(** The spec's example: of ["A"], ["B"], ["C"] only ["A"] has an account. *)
Example orchestration_A_exists :
  BulkSpl.generateCompleteBulkSplTransactions
    Inputs.onlyAExists
    (Inputs.splConfig None (Some ["A"; "B"; "C"]) (Some 5) None)
  = (map (lookupAddress Inputs.mint) ["A"; "B"; "C"],
     inr {| BulkSpl.accountCreationTxs :=
              [[Inputs.create "B"; Inputs.create "C"]];
            BulkSpl.transferTxs :=
              [[Inputs.splTo "A" 5; Inputs.splTo "B" 5; Inputs.splTo "C" 5;
                Inputs.splMemo]] |}).
Proof. reflexivity. Qed.

(** C5 fails on a configuration that gives [recipients] without
    [fixedAmount] next to [transfers]: the orchestrator takes its recipient
    list from [recipients], the transfer entry point takes its requests from
    [transfers].  The account of ["A"] is looked up and provisioned, the
    transfer goes to ["B"], whose account is neither looked up nor created. *)
Theorem orchestration_mixed_configuration :
  BulkSpl.generateCompleteBulkSplTransactions
    Inputs.allMissing
    (Inputs.splConfig (Some [Inputs.request "B" 10]) (Some ["A"]) None None)
  = ([lookupAddress Inputs.mint "A"],
     inr {| BulkSpl.accountCreationTxs := [[Inputs.create "A"]];
            BulkSpl.transferTxs := [[Inputs.splTo "B" 10; Inputs.splMemo]] |}).
Proof. reflexivity. Qed.

(** * Further properties *)

(** ** [chunk] of utils.ts *)

Section Chunk.

Variable T : Type.
Variable C : nat.
Hypothesis C_positive : (1 <= C)%nat.

Lemma relativeIndex_inside (len k : nat) :
  relativeIndex len (Z.of_nat k) = Nat.min k len.
Proof.
  unfold relativeIndex. destruct (Z.ltb_spec (Z.of_nat k) 0); lia.
Qed.

(** Inside the loop the slice is the next [C] elements, or what is left. *)
Lemma slice_step (arr : list T) (k : nat) :
  (k < length arr)%nat ->
  slice arr (Z.of_nat k) (Z.of_nat k + Z.of_nat C) = firstn C (skipn k arr).
Proof.
  intros Hk. unfold slice.
  rewrite <- Nat2Z.inj_add, !relativeIndex_inside.
  rewrite (Nat.min_l k) by lia.
  destruct (Nat.le_gt_cases (k + C) (length arr)) as [Hfits|Hshort].
  - rewrite Nat.min_l by lia. f_equal. lia.
  - rewrite Nat.min_r by lia.
    rewrite !firstn_all2; [reflexivity|rewrite length_skipn; lia..].
Qed.

Lemma chunkAcc_open (cur l : list T) :
  (length cur < C)%nat ->
  cur ++ l <> [] ->
  chunkAcc (Z.of_nat C) cur l
  = (cur ++ firstn (C - length cur) l)
      :: chunkAcc (Z.of_nat C) [] (skipn (C - length cur) l).
Proof.
  revert cur. induction l as [|x r IH]; intros cur Hlt Hne.
  - rewrite app_nil_r in Hne. rewrite firstn_nil, skipn_nil, app_nil_r.
    destruct cur; [contradiction|reflexivity].
  - cbn [chunkAcc]. rewrite Z.geb_leb.
    assert (Hlen : length (cur ++ [x]) = S (length cur))
      by (rewrite length_app; cbn; lia).
    destruct (C - length cur)%nat as [|m] eqn:Hm; [lia|].
    cbn [firstn skipn].
    destruct (Z.leb_spec (Z.of_nat C) (Z.of_nat (length (cur ++ [x]))))
      as [Hfull|Hopen].
    + assert (m = 0%nat) by lia. subst m. cbn [firstn skipn]. reflexivity.
    + rewrite IH; [|lia|now destruct cur].
      rewrite Hlen. replace (C - S (length cur))%nat with m by lia.
      now rewrite <- app_assoc.
Qed.

Lemma chunksOf_step (l : list T) :
  l <> [] ->
  chunksOf (Z.of_nat C) l = firstn C l :: chunksOf (Z.of_nat C) (skipn C l).
Proof.
  intros Hne. unfold chunksOf.
  rewrite chunkAcc_open; [|cbn; lia|assumption].
  cbn [length app]. now rewrite Nat.sub_0_r.
Qed.

(** The loop of [chunk], entered at index [k] with enough fuel, appends the
    greedy chunks of the rest of the array. *)
Lemma chunk_while_chunks (fuel : nat) (arr : list T) (k : nat)
      (chunks : list (list T)) :
  (length arr - k < fuel)%nat ->
  chunk_while fuel arr (Z.of_nat C) (Z.of_nat k) chunks
  = Some (chunks ++ chunksOf (Z.of_nat C) (skipn k arr)).
Proof.
  revert k chunks. induction fuel as [|fuel IH]; intros k chunks Hfuel; [lia|].
  cbn [chunk_while].
  destruct (Z.ltb_spec (Z.of_nat k) (Z.of_nat (length arr))) as [Hin|Hout].
  - rewrite slice_step by lia. rewrite <- Nat2Z.inj_add.
    rewrite IH by lia. rewrite <- app_assoc. cbn [app].
    rewrite (@chunksOf_step (skipn k arr)).
    + now rewrite skipn_skipn, (Nat.add_comm C k).
    + intros Hnil. apply (f_equal (@length T)) in Hnil.
      rewrite length_skipn in Hnil. cbn in Hnil. lia.
  - rewrite skipn_all2 by lia. cbn. now rewrite app_nil_r.
Qed.

Lemma chunk_chunks (fuel : nat) (arr : list T) :
  (length arr < fuel)%nat ->
  chunk fuel arr (Z.of_nat C) = Some (chunksOf (Z.of_nat C) arr).
Proof.
  intros Hfuel. unfold chunk.
  exact (@chunk_while_chunks fuel arr 0 [] ltac:(lia)).
Qed.

End Chunk.

Lemma chunkAcc_nonempty (A : Type) (c : Z) (cur l : list A) :
  Forall (fun g => g <> []) (chunkAcc c cur l).
Proof.
  revert cur. induction l as [|x r IH]; intros cur.
  - destruct cur; repeat constructor. discriminate.
  - cbn [chunkAcc].
    destruct (Z.of_nat (length (cur ++ [x])) >=? c); [|apply IH].
    constructor; [|apply IH]. now destruct cur.
Qed.

Lemma chunk_while_runs_on (T : Type) (fuel : nat) (arr : list T) (size i : Z)
      (chunks : list (list T)) :
  size <= 0 ->
  i < Z.of_nat (length arr) ->
  chunk_while fuel arr size i chunks = None.
Proof.
  intros Hsize. revert i chunks.
  induction fuel as [|fuel IH]; intros i chunks Hi; [reflexivity|].
  cbn [chunk_while].
  destruct (Z.ltb_spec i (Z.of_nat (length arr))); [|lia].
  apply IH. lia.
Qed.

(** X1. For a size of at least one, [chunk] returns: with more fuel than the
    array has elements the loop ends, and the chunks, read in order, are the
    array; no chunk is empty and none is longer than the size. *)
Theorem chunk_keeps_the_array (T : Type) (fuel : nat) (arr : list T) (size : Z) :
  1 <= size ->
  (length arr < fuel)%nat ->
  exists chunks,
    chunk fuel arr size = Some chunks
    /\ concat chunks = arr
    /\ Forall (fun ch => ch <> [] /\ Z.of_nat (length ch) <= size) chunks.
Proof.
  intros Hsize Hfuel.
  assert (HC : (1 <= Z.to_nat size)%nat) by lia.
  rewrite <- (Z2Nat.id size) by lia.
  rewrite (chunk_chunks HC arr Hfuel).
  eexists. split; [reflexivity|]. split; [apply chunkAcc_concat|].
  apply Forall_forall. intros ch Hin. split.
  - unfold chunksOf in Hin.
    pose proof (chunkAcc_nonempty (Z.of_nat (Z.to_nat size)) [] arr) as Hne.
    rewrite Forall_forall in Hne. now apply Hne.
  - pose proof (chunkAcc_sizes HC [] arr ltac:(cbn; lia)) as Hsizes.
    apply (in_map (@length T)) in Hin. unfold chunksOf in Hin.
    rewrite Hsizes in Hin. apply (bundleSizes_bound HC) in Hin. lia.
Qed.

Lemma chunk_keeps_the_array_witness :
  exists chunks,
    chunk 8 ["a"; "b"; "c"; "d"; "e"; "f"; "g"] 3 = Some chunks
    /\ concat chunks = ["a"; "b"; "c"; "d"; "e"; "f"; "g"]
    /\ Forall (fun ch => ch <> [] /\ Z.of_nat (length ch) <= 3) chunks.
Proof.
  apply (@chunk_keeps_the_array string 8 ["a"; "b"; "c"; "d"; "e"; "f"; "g"] 3).
  - lia.
  - cbn. lia.
Defined.

(** X2. For a size [C >= 1], [chunk] returns [ceil(n/C)] chunks of an array
    of [n] elements; every chunk but the last has [C] elements and the last
    has [n mod C], or [C] when that is zero. *)
Theorem chunk_sizes (T : Type) (fuel : nat) (arr : list T) (C : nat) :
  (1 <= C)%nat ->
  (length arr < fuel)%nat ->
  exists chunks,
    chunk fuel arr (Z.of_nat C) = Some chunks
    /\ length chunks = ceilDiv (length arr) C
    /\ forall k ch,
        nth_error chunks k = Some ch ->
        length ch
        = if (S k <? length chunks)%nat then C
          else if (length arr mod C =? 0)%nat then C else (length arr mod C)%nat.
Proof.
  intros HC Hfuel. rewrite (chunk_chunks HC arr Hfuel).
  eexists. split; [reflexivity|].
  pose proof (chunkAcc_sizes HC [] arr ltac:(cbn; lia)) as Hsizes.
  cbn [length Nat.add] in Hsizes. fold (chunksOf (Z.of_nat C) arr) in Hsizes.
  split.
  - rewrite <- (length_map (@length T)), Hsizes. now apply bundleSizes_length.
  - intros k ch Hnth. rewrite <- (length_map (@length T)), Hsizes.
    apply (bundleSizes_nth HC). rewrite <- Hsizes. now apply map_nth_error.
Qed.

Lemma chunk_sizes_witness :
  exists chunks,
    chunk 8 ["a"; "b"; "c"; "d"; "e"; "f"; "g"] 3 = Some chunks
    /\ length chunks = 3%nat
    /\ forall k ch,
        nth_error chunks k = Some ch ->
        length ch = if (S k <? length chunks)%nat then 3%nat else 1%nat.
Proof.
  apply (@chunk_sizes string 8 ["a"; "b"; "c"; "d"; "e"; "f"; "g"] 3).
  - lia.
  - cbn. lia.
Defined.

(** X3. [chunk] returns no chunk for an empty array, whatever the size; for
    a size of zero or less and an array that is not empty its loop never
    ends: no amount of fuel yields a result. *)
Theorem chunk_edge_cases (T : Type) (size : Z) :
  (forall fuel, chunk (S fuel) (@nil T) size = Some [])
  /\ (size <= 0 ->
      forall (arr : list T), arr <> [] -> forall fuel, chunk fuel arr size = None).
Proof.
  split; [reflexivity|].
  intros Hsize arr Hne fuel. apply chunk_while_runs_on; [assumption|].
  destruct arr; [contradiction|cbn; lia].
Qed.

Lemma chunk_edge_cases_witness :
  chunk 1 (@nil string) (-2) = Some []
  /\ (forall fuel, chunk fuel ["a"; "b"] 0 = None)
  /\ (forall fuel, chunk fuel ["a"; "b"] (-1) = None).
Proof.
  split; [exact (proj1 (chunk_edge_cases string (-2)) 0%nat)|]. split.
  - apply (proj2 (chunk_edge_cases string 0)); [lia|discriminate].
  - apply (proj2 (chunk_edge_cases string (-1))); [lia|discriminate].
Defined.

(** ** The generators and [chunk] *)

(** X4. With a capacity [C >= 1] and every lookup completing, the
    transactions of [generateTokenAccountCreationTransactions] are what
    [chunk] makes, at size [C], of the creation instructions of the recipients
    whose account is missing. *)
Theorem account_creation_is_chunk
        (connection : Connection) (mint payer : PublicKey)
        (recipients : list string) (instructionsPerTx : option Z)
        (C fuel : nat) :
  (1 <= C)%nat ->
  orDefault instructionsPerTx BulkSpl.DEFAULT_INSTRUCTIONS_PER_TX_ACCOUNT_CREATION
  = Z.of_nat C ->
  Forall (lookupCompletes connection mint) recipients ->
  (length recipients < fuel)%nat ->
  exists txs,
    outcome (BulkSpl.generateTokenAccountCreationTransactions
               connection mint payer recipients instructionsPerTx)
    = inr txs
    /\ chunk fuel
             (map (provisioning payer mint)
                  (filter (isMissing connection mint) recipients))
             (Z.of_nat C)
       = Some txs.
Proof.
  intros HC Hcap Hall Hfuel.
  rewrite generateTokenAccountCreationTransactions_chunks by assumption.
  rewrite Hcap. eexists. split; [reflexivity|].
  apply (chunk_chunks HC). rewrite length_map.
  pose proof (filter_length_le (isMissing connection mint) recipients). lia.
Qed.

Lemma account_creation_is_chunk_witness :
  exists txs,
    outcome (BulkSpl.generateTokenAccountCreationTransactions
               Inputs.onlyAExists Inputs.mint Inputs.sender
               ["A"; "B"; "C"] (Some 1))
    = inr txs
    /\ chunk 4 [Inputs.create "B"; Inputs.create "C"] 1 = Some txs.
Proof.
  apply (@account_creation_is_chunk
           Inputs.onlyAExists Inputs.mint Inputs.sender ["A"; "B"; "C"] (Some 1)
           1 4).
  - lia.
  - reflexivity.
  - repeat constructor; eexists; reflexivity.
  - cbn. lia.
Defined.

(** X5. With a capacity [C >= 1], the transactions of the transfer entry
    points are what [chunk] makes, at size [C], of the transfer operations of
    the requests, each chunk closed by the memo. *)
Theorem transfers_are_chunks_with_memo (C fuel : nat) :
  (1 <= C)%nat ->
  (forall config reqs,
      splCapacity config = Z.of_nat C ->
      splRequests config = Some reqs ->
      (length reqs < fuel)%nat ->
      exists chunks,
        chunk fuel (map (splTransfer config) reqs) (Z.of_nat C) = Some chunks
        /\ BulkSpl.generateBulkSplTransactions config
           = inr (map (withMemo (splMemo config)) chunks))
  /\ (forall config reqs,
         solCapacity config = Z.of_nat C ->
         solRequests config = Some reqs ->
         (length reqs < fuel)%nat ->
         exists chunks,
           chunk fuel (map (solTransfer config) reqs) (Z.of_nat C) = Some chunks
           /\ BulkSol.generateBulkSolTransactions config
              = inr (map (withMemo (solMemo config)) chunks)).
Proof.
  intros HC. split; intros config reqs Hcap Hreqs Hfuel.
  - rewrite generateBulkSplTransactions_groups, Hreqs, Hcap.
    rewrite (chunk_chunks HC) by (now rewrite length_map).
    eexists. split; [reflexivity|]. unfold chunksOf.
    rewrite groupsBy_chunkAcc; [reflexivity|lia|apply Z.mod_0_l; lia|now right].
  - rewrite generateBulkSolTransactions_groups, Hreqs, Hcap.
    rewrite (chunk_chunks HC) by (now rewrite length_map).
    eexists. split; [reflexivity|]. unfold chunksOf.
    rewrite groupsBy_chunkAcc; [reflexivity|lia|apply Z.mod_0_l; lia|now right].
Qed.

Lemma transfers_are_chunks_with_memo_witness :
  exists chunks,
    chunk 4 [Inputs.splTo "A" 5; Inputs.splTo "B" 5; Inputs.splTo "C" 5] 2
    = Some chunks
    /\ BulkSpl.generateBulkSplTransactions
         (Inputs.splConfig None (Some ["A"; "B"; "C"]) (Some 5) (Some 2))
       = inr (map (withMemo Inputs.splMemo) chunks).
Proof.
  apply (proj1 (@transfers_are_chunks_with_memo 2 4 ltac:(lia))
               (Inputs.splConfig None (Some ["A"; "B"; "C"]) (Some 5) (Some 2))
               _ eq_refl eq_refl).
  cbn. lia.
Defined.

(** ** More on account creation *)

(** X6. When every lookup completes, [generateTokenAccountCreationTransactions]
    issues exactly one lookup per recipient, in input order, at the
    associated token address of the recipient for the mint: a recipient
    listed twice is looked up twice, and neither the capacity nor the payer
    changes the lookups. *)
Theorem account_creation_lookups
        (connection : Connection) (mint payer : PublicKey)
        (recipients : list string) (instructionsPerTx : option Z) :
  Forall (lookupCompletes connection mint) recipients ->
  lookupsIssued (BulkSpl.generateTokenAccountCreationTransactions
                   connection mint payer recipients instructionsPerTx)
  = map (fun r => getAssociatedTokenAddressSync mint (PublicKey_new r)) recipients.
Proof.
  intros Hall.
  now rewrite generateTokenAccountCreationTransactions_chunks by assumption.
Qed.

Lemma account_creation_lookups_witness :
  lookupsIssued (BulkSpl.generateTokenAccountCreationTransactions
                   Inputs.onlyAExists Inputs.mint Inputs.sender
                   ["B"; "A"; "B"] (Some 0))
  = [lookupAddress Inputs.mint "B"; lookupAddress Inputs.mint "A";
     lookupAddress Inputs.mint "B"].
Proof.
  apply (@account_creation_lookups
           Inputs.onlyAExists Inputs.mint Inputs.sender ["B"; "A"; "B"] (Some 0)).
  repeat constructor; eexists; reflexivity.
Defined.

(** X7. When every lookup completes, whatever the capacity, the
    instructions of the returned transactions are, in order, one creation
    instruction for each recipient whose account is reported missing and
    nothing else, and no returned transaction is empty. *)
Theorem account_creation_content
        (connection : Connection) (mint payer : PublicKey)
        (recipients : list string) (instructionsPerTx : option Z) :
  Forall (lookupCompletes connection mint) recipients ->
  exists txs,
    outcome (BulkSpl.generateTokenAccountCreationTransactions
               connection mint payer recipients instructionsPerTx)
    = inr txs
    /\ concat txs
       = map (fun r => instruction (createTokenAccountInstruction
                                      payer mint (PublicKey_new r)))
             (filter (isMissing connection mint) recipients)
    /\ Forall (fun tx => tx <> []) txs.
Proof.
  intros Hall.
  rewrite generateTokenAccountCreationTransactions_chunks by assumption.
  eexists. split; [reflexivity|]. split.
  - apply chunkAcc_concat.
  - apply chunkAcc_nonempty.
Qed.

Lemma account_creation_content_witness :
  exists txs,
    outcome (BulkSpl.generateTokenAccountCreationTransactions
               Inputs.onlyAExists Inputs.mint Inputs.sender
               ["B"; "A"; "C"; "B"] (Some (-4)))
    = inr txs
    /\ concat txs = [Inputs.create "B"; Inputs.create "C"; Inputs.create "B"]
    /\ Forall (fun tx => tx <> []) txs.
Proof.
  apply (@account_creation_content
           Inputs.onlyAExists Inputs.mint Inputs.sender
           ["B"; "A"; "C"; "B"] (Some (-4))).
  repeat constructor; eexists; reflexivity.
Defined.

Section CreationPrefix.

Variable connection : Connection.
Variables (mint payer : PublicKey) (c : Z) (len : nat).

(** The loop over recipients whose lookups complete, followed by one whose
    lookup is rejected. *)
Lemma creation_loop_stops (before : list string) (r : string) (e : JsError)
      (after : list string) (i : nat) (st : Batch) :
  Forall (lookupCompletes connection mint) before ->
  connection (lookupAddress mint r) = Rejects e ->
  forEachAsync (BulkSpl.accountCreationStep connection mint payer c len)
               i (before ++ r :: after) st
  = (map (lookupAddress mint) (before ++ [r]), inl e).
Proof.
  intros Hbefore Hrej. revert i st.
  induction Hbefore as [|x before [info Hinfo] _ IH]; intros i st.
  - cbn [app forEachAsync map].
    now rewrite (@step_rejected connection mint payer c len i r st e Hrej).
  - cbn [app forEachAsync map].
    assert (Hstep : exists st',
               BulkSpl.accountCreationStep connection mint payer c len i x st
               = ([lookupAddress mint x], inr st')).
    { destruct info as [info|]; eexists.
      - apply (@step_present connection mint payer c len i x st info Hinfo).
      - apply (@step_missing connection mint payer c len i x st Hinfo). }
    destruct Hstep as [st' ->]. cbn [bind]. now rewrite IH.
Qed.

End CreationPrefix.

(** X8. When the lookup of a recipient is rejected and the lookups of all
    recipients before it complete, [generateTokenAccountCreationTransactions]
    is rejected with the reason of that lookup, after the lookups up to and
    including it and none of the later ones; the instructions built so far
    are not returned. *)
Theorem account_creation_stops_at_rejection
        (connection : Connection) (mint payer : PublicKey)
        (before : list string) (r : string) (after : list string)
        (e : JsError) (instructionsPerTx : option Z) :
  Forall (lookupCompletes connection mint) before ->
  connection (getAssociatedTokenAddressSync mint (PublicKey_new r)) = Rejects e ->
  BulkSpl.generateTokenAccountCreationTransactions
    connection mint payer (before ++ r :: after) instructionsPerTx
  = (map (fun r => getAssociatedTokenAddressSync mint (PublicKey_new r))
         (before ++ [r]),
     inl e).
Proof.
  intros Hbefore Hrej. unfold BulkSpl.generateTokenAccountCreationTransactions.
  rewrite (@creation_loop_stops connection mint payer _ _ before r e after
                                0 emptyBatch Hbefore Hrej).
  reflexivity.
Qed.

Lemma account_creation_stops_at_rejection_witness :
  BulkSpl.generateTokenAccountCreationTransactions
    (Inputs.failsAt "C") Inputs.mint Inputs.sender
    (["A"; "B"] ++ "C" :: ["D"]) None
  = ([lookupAddress Inputs.mint "A"; lookupAddress Inputs.mint "B";
      lookupAddress Inputs.mint "C"],
     inl (Error "failed to get info about account")).
Proof.
  apply (@account_creation_stops_at_rejection
           (Inputs.failsAt "C") Inputs.mint Inputs.sender ["A"; "B"] "C" ["D"]).
  - repeat constructor; eexists; reflexivity.
  - reflexivity.
Defined.

Lemma filter_none (A : Type) (f : A -> bool) (l : list A) :
  Forall (fun x => f x = false) l -> filter f l = [].
Proof.
  induction 1 as [|x l Hx _ IH]; [reflexivity|].
  cbn [filter]. now rewrite Hx.
Qed.

(** X9. When every recipient already has its account, every lookup is still
    issued and no transaction is returned. *)
Theorem account_creation_nothing_missing
        (connection : Connection) (mint payer : PublicKey)
        (recipients : list string) (instructionsPerTx : option Z) :
  Forall (fun r => exists info,
              connection (getAssociatedTokenAddressSync mint (PublicKey_new r))
              = Resolves (Some info))
         recipients ->
  BulkSpl.generateTokenAccountCreationTransactions
    connection mint payer recipients instructionsPerTx
  = (map (fun r => getAssociatedTokenAddressSync mint (PublicKey_new r)) recipients,
     inr []).
Proof.
  intros Hall.
  rewrite generateTokenAccountCreationTransactions_chunks.
  - replace (filter (isMissing connection mint) recipients) with (@nil string);
      [reflexivity|].
    symmetry. apply filter_none.
    eapply Forall_impl; [|exact Hall].
    intros r [info Hinfo]. unfold isMissing, lookupAddress. now rewrite Hinfo.
  - eapply Forall_impl; [|exact Hall].
    intros r [info Hinfo]. now exists (Some info).
Qed.

Lemma account_creation_nothing_missing_witness :
  BulkSpl.generateTokenAccountCreationTransactions
    Inputs.onlyAExists Inputs.mint Inputs.sender ["A"; "A"] None
  = ([lookupAddress Inputs.mint "A"; lookupAddress Inputs.mint "A"], inr []).
Proof.
  apply (@account_creation_nothing_missing
           Inputs.onlyAExists Inputs.mint Inputs.sender ["A"; "A"] None).
  repeat constructor; eexists; reflexivity.
Defined.

(** ** More on the orchestrator *)

Lemma bind_lookups (A B : Type) (m : Async A) (k : A -> Async B) :
  exists later, lookupsIssued (bind m k) = lookupsIssued m ++ later.
Proof.
  destruct m as [issued [e|a]]; cbn.
  - exists []. now rewrite app_nil_r.
  - destruct (k a) as [later r]. now exists later.
Qed.

(** The first recipient is looked up, whatever the lookup answers. *)
Lemma account_creation_first_lookup
      (connection : Connection) (mint payer : PublicKey)
      (x : string) (rest : list string) (instructionsPerTx : option Z) :
  exists later,
    lookupsIssued (BulkSpl.generateTokenAccountCreationTransactions
                     connection mint payer (x :: rest) instructionsPerTx)
    = lookupAddress mint x :: later.
Proof.
  unfold BulkSpl.generateTokenAccountCreationTransactions.
  cbn [forEachAsync].
  match goal with
  | |- context [bind (bind ?step ?k1) ?k2] =>
      destruct (bind_lookups (bind step k1) k2) as [l2 ->];
      destruct (bind_lookups step k1) as [l1 ->];
      assert (Hstep : lookupsIssued step = [lookupAddress mint x])
  end.
  { unfold BulkSpl.accountCreationStep, getAccountInfo.
    fold (lookupAddress mint x).
    now destruct (connection (lookupAddress mint x)) as [[info|]|e]. }
  rewrite Hstep. cbn. now eexists.
Qed.

(** The transfer entry point either throws its configuration error or
    returns. *)
Lemma configuration_shape (config : BulkSpl.IBulkSplTransferConfig) :
  BulkSpl.generateBulkSplTransactions config
  = inl (Error "Either transfers or (recipients + fixedAmount) must be provided")
  \/ exists txs, BulkSpl.generateBulkSplTransactions config = inr txs.
Proof.
  rewrite generateBulkSplTransactions_groups.
  destruct (splRequests config); [right; now eexists|now left].
Qed.

(** Once the orchestrator has a recipient list, it cannot end as its own
    configuration error does: either a lookup was issued, or the transfer
    entry point decided. *)
Lemma orchestration_past_derivation
      (connection : Connection) (config : BulkSpl.IBulkSplTransferConfig)
      (recipientList : list string) :
  recipientListOf config = Some recipientList ->
  BulkSpl.generateCompleteBulkSplTransactions connection config
  <> ([], inl (Error "Either transfers or recipients must be provided")).
Proof.
  intros Hlist. unfold BulkSpl.generateCompleteBulkSplTransactions.
  rewrite derived_recipientList, Hlist. cbn [bind ret app].
  destruct recipientList as [|x rest]; intros Hbad.
  - cbn in Hbad. unfold liftSync in Hbad.
    destruct (configuration_shape config) as [Herr|[txs Hok]].
    + rewrite Herr in Hbad. cbn in Hbad. congruence.
    + rewrite Hok in Hbad. cbn in Hbad. congruence.
  - match type of Hbad with
    | (let (later, r) := bind ?m ?k in _) = _ =>
        destruct (bind_lookups m k) as [l2 Hl2];
        destruct (account_creation_first_lookup
                    connection (BulkSpl.mint config) (BulkSpl.sender config)
                    x rest (BulkSpl.instructionsPerTx config)) as [l1 Hl1];
        rewrite Hl1 in Hl2;
        destruct (bind m k) as [later r]
    end.
    cbn in Hl2. subst later. discriminate Hbad.
Qed.

(** X10. The orchestrator fails with its own configuration error, before
    any lookup is issued, exactly when [recipients] and [transfers] are both
    absent. *)
Theorem orchestration_configuration_error
        (connection : Connection) (config : BulkSpl.IBulkSplTransferConfig) :
  BulkSpl.recipients config = None /\ BulkSpl.transfers config = None
  <-> BulkSpl.generateCompleteBulkSplTransactions connection config
      = ([], inl (Error "Either transfers or recipients must be provided")).
Proof.
  split.
  - intros [Hrs Hts]. unfold BulkSpl.generateCompleteBulkSplTransactions.
    now rewrite Hrs, Hts.
  - intros Hrun.
    destruct (recipientListOf config) as [recipientList|] eqn:Hlist.
    + now destruct (orchestration_past_derivation connection config Hlist).
    + unfold recipientListOf in Hlist.
      destruct (BulkSpl.recipients config); [discriminate|].
      destruct (BulkSpl.transfers config); [discriminate|]. now split.
Qed.

Lemma orchestration_configuration_error_witness :
  BulkSpl.generateCompleteBulkSplTransactions
    (Inputs.failsAt "A") (Inputs.splConfig None None (Some 5) None)
  = ([], inl (Error "Either transfers or recipients must be provided")).
Proof.
  apply (proj1 (orchestration_configuration_error
                  (Inputs.failsAt "A") (Inputs.splConfig None None (Some 5) None))).
  split; reflexivity.
Defined.

(** X11. When [recipients] is given without [fixedAmount] and without
    [transfers], the orchestrator first issues the lookup of every recipient
    and only then fails, with the configuration error of the transfer entry
    point; the account-creation transactions built meanwhile are not
    returned. *)
Theorem orchestration_late_configuration_error
        (connection : Connection) (config : BulkSpl.IBulkSplTransferConfig)
        (rs : list string) :
  BulkSpl.recipients config = Some rs ->
  BulkSpl.fixedAmount config = None ->
  BulkSpl.transfers config = None ->
  Forall (lookupCompletes connection (BulkSpl.mint config)) rs ->
  BulkSpl.generateCompleteBulkSplTransactions connection config
  = (map (fun r => getAssociatedTokenAddressSync (BulkSpl.mint config) (PublicKey_new r))
         rs,
     inl (Error "Either transfers or (recipients + fixedAmount) must be provided")).
Proof.
  intros Hrs Hfixed Hts Hall.
  rewrite (@generateCompleteBulkSplTransactions_completes connection config rs);
    [|unfold recipientListOf; now rewrite Hrs|assumption].
  rewrite generateBulkSplTransactions_groups.
  unfold splRequests, requestsOf. now rewrite Hfixed, Hts.
Qed.

Lemma orchestration_late_configuration_error_witness :
  BulkSpl.generateCompleteBulkSplTransactions
    Inputs.allMissing (Inputs.splConfig None (Some ["A"; "B"]) None None)
  = ([lookupAddress Inputs.mint "A"; lookupAddress Inputs.mint "B"],
     inl (Error "Either transfers or (recipients + fixedAmount) must be provided")).
Proof.
  apply (@orchestration_late_configuration_error
           Inputs.allMissing (Inputs.splConfig None (Some ["A"; "B"]) None None)
           ["A"; "B"]); try reflexivity.
  repeat constructor; eexists; reflexivity.
Defined.

(** ** Created accounts and paid accounts *)

Lemma filter_map_swap (A B : Type) (f : B -> bool) (g : A -> B) (l : list A) :
  filter f (map g l) = map g (filter (fun x => f (g x)) l).
Proof.
  induction l as [|x l IH]; [reflexivity|].
  cbn [map filter]. destruct (f (g x)); cbn [map]; now rewrite IH.
Qed.

Lemma flat_map_singletons (A B C : Type) (f : B -> list C) (g : A -> B)
      (h : A -> C) (l : list A) :
  (forall x, f (g x) = [h x]) ->
  flat_map f (map g l) = map h l.
Proof.
  intros Hf. induction l as [|x l IH]; [reflexivity|].
  cbn [map flat_map]. now rewrite Hf, IH.
Qed.

Lemma paid_through_memo (memo : TransactionInstruction)
      (gs : list (list TransactionInstruction)) :
  paidAccount memo = [] ->
  accountsPaid (map (withMemo memo) gs) = flat_map paidAccount (concat gs).
Proof.
  intros Hmemo. unfold accountsPaid.
  induction gs as [|g gs IH]; [reflexivity|].
  cbn [map concat]. unfold withMemo at 1.
  rewrite !flat_map_app, IH. cbn [flat_map]. rewrite Hmemo.
  now rewrite !app_nil_r.
Qed.

Lemma recipientList_of_requests
      (config : BulkSpl.IBulkSplTransferConfig) (reqs : list ITransfer) :
  splRequests config = Some reqs ->
  BulkSpl.recipients config = None \/ BulkSpl.fixedAmount config <> None ->
  recipientListOf config = Some (map recipient reqs).
Proof.
  intros Hreqs Hmode.
  unfold recipientListOf. unfold splRequests, requestsOf in Hreqs.
  destruct (BulkSpl.recipients config) as [rs|].
  - destruct (BulkSpl.fixedAmount config) as [a|];
      [|destruct Hmode; [discriminate|contradiction]].
    injection Hreqs as <-. rewrite map_map. cbn [recipient]. now rewrite map_id.
  - assert (Hts : BulkSpl.transfers config = Some reqs)
      by (destruct (BulkSpl.fixedAmount config); assumption).
    now rewrite Hts.
Qed.

(** X12. When [recipients] comes with [fixedAmount], or [transfers] comes
    alone, the orchestrator looks up, in order, the token account of each
    recipient it pays, once per transfer request, and when every lookup
    completes it returns the creation instructions of those reported missing
    together with one transfer operation per request. *)
Theorem orchestration_checks_whom_it_pays
        (connection : Connection) (config : BulkSpl.IBulkSplTransferConfig)
        (reqs : list ITransfer) :
  splRequests config = Some reqs ->
  BulkSpl.recipients config = None \/ BulkSpl.fixedAmount config <> None ->
  Forall (lookupCompletes connection (BulkSpl.mint config)) (map recipient reqs) ->
  lookupsIssued (BulkSpl.generateCompleteBulkSplTransactions connection config)
  = map (fun t => getAssociatedTokenAddressSync
                    (BulkSpl.mint config) (PublicKey_new (recipient t))) reqs
  /\ exists result,
      outcome (BulkSpl.generateCompleteBulkSplTransactions connection config)
      = inr result
      /\ concat (BulkSpl.accountCreationTxs result)
         = map (fun r => instruction (createTokenAccountInstruction
                                        (BulkSpl.sender config) (BulkSpl.mint config)
                                        (PublicKey_new r)))
               (filter (isMissing connection (BulkSpl.mint config))
                       (map recipient reqs))
      /\ concat (map contentOperations (BulkSpl.transferTxs result))
         = map (splTransfer config) reqs.
Proof.
  intros Hreqs Hmode Hall.
  rewrite (@generateCompleteBulkSplTransactions_completes
             connection config (map recipient reqs)
             (recipientList_of_requests config Hreqs Hmode) Hall).
  rewrite generateBulkSplTransactions_groups, Hreqs.
  split; [cbn [lookupsIssued fst]; now rewrite map_map|].
  eexists. split; [reflexivity|].
  cbn [BulkSpl.accountCreationTxs BulkSpl.transferTxs].
  split; [apply chunkAcc_concat|].
  exact (proj1 (proj2 (grouped_transfers
                         (splTransfer config) (splMemo config)
                         (splTransfer_content config) eq_refl
                         (splCapacity config) reqs))).
Qed.

Lemma orchestration_checks_whom_it_pays_witness :
  lookupsIssued (BulkSpl.generateCompleteBulkSplTransactions
                   Inputs.onlyAExists
                   (Inputs.splConfig
                      (Some [Inputs.request "B" 10; Inputs.request "A" 20;
                             Inputs.request "B" 30])
                      None None None))
  = [lookupAddress Inputs.mint "B"; lookupAddress Inputs.mint "A";
     lookupAddress Inputs.mint "B"]
  /\ exists result,
      outcome (BulkSpl.generateCompleteBulkSplTransactions
                 Inputs.onlyAExists
                 (Inputs.splConfig
                    (Some [Inputs.request "B" 10; Inputs.request "A" 20;
                           Inputs.request "B" 30])
                    None None None))
      = inr result
      /\ concat (BulkSpl.accountCreationTxs result)
         = [Inputs.create "B"; Inputs.create "B"]
      /\ concat (map contentOperations (BulkSpl.transferTxs result))
         = [Inputs.splTo "B" 10; Inputs.splTo "A" 20; Inputs.splTo "B" 30].
Proof.
  apply (@orchestration_checks_whom_it_pays
           Inputs.onlyAExists
           (Inputs.splConfig
              (Some [Inputs.request "B" 10; Inputs.request "A" 20;
                     Inputs.request "B" 30])
              None None None)
           [Inputs.request "B" 10; Inputs.request "A" 20; Inputs.request "B" 30]).
  - reflexivity.
  - now left.
  - repeat constructor; eexists; reflexivity.
Defined.

(** X13. When [recipients] comes with [fixedAmount], or [transfers] comes
    alone, and every lookup completes, the token accounts that the
    account-creation transactions create are exactly the destinations of the
    transfers that the oracle reports missing, in the order of the transfers:
    no paid account is left without its creation, and no other account is
    created. *)
Theorem created_accounts_are_missing_destinations
        (connection : Connection) (config : BulkSpl.IBulkSplTransferConfig)
        (reqs : list ITransfer) :
  splRequests config = Some reqs ->
  BulkSpl.recipients config = None \/ BulkSpl.fixedAmount config <> None ->
  Forall (lookupCompletes connection (BulkSpl.mint config)) (map recipient reqs) ->
  exists result,
    outcome (BulkSpl.generateCompleteBulkSplTransactions connection config)
    = inr result
    /\ accountsCreated (BulkSpl.accountCreationTxs result)
       = filter (reportedMissing connection)
                (accountsPaid (BulkSpl.transferTxs result)).
Proof.
  intros Hreqs Hmode Hall.
  rewrite (@generateCompleteBulkSplTransactions_completes
             connection config (map recipient reqs)
             (recipientList_of_requests config Hreqs Hmode) Hall).
  rewrite generateBulkSplTransactions_groups, Hreqs.
  eexists. split; [reflexivity|].
  cbn [BulkSpl.accountCreationTxs BulkSpl.transferTxs].
  rewrite paid_through_memo by reflexivity.
  rewrite groupsBy_concat.
  replace (match map (splTransfer config) reqs with
           | [] => []
           | _ :: _ => [] ++ map (splTransfer config) reqs
           end) with (map (splTransfer config) reqs)
    by (now destruct (map (splTransfer config) reqs)).
  unfold accountsCreated, chunksOf. rewrite chunkAcc_concat. cbn [app].
  rewrite (flat_map_singletons createdAccount
             (provisioning (BulkSpl.sender config) (BulkSpl.mint config))
             (lookupAddress (BulkSpl.mint config))) by reflexivity.
  rewrite (flat_map_singletons paidAccount (splTransfer config)
             (fun t => lookupAddress (BulkSpl.mint config) (recipient t)))
    by reflexivity.
  rewrite !filter_map_swap, map_map. reflexivity.
Qed.

Lemma created_accounts_are_missing_destinations_witness :
  exists result,
    outcome (BulkSpl.generateCompleteBulkSplTransactions
               Inputs.onlyAExists
               (Inputs.splConfig None (Some ["A"; "B"; "C"]) (Some 5) (Some 2)))
    = inr result
    /\ accountsCreated (BulkSpl.accountCreationTxs result)
       = filter (reportedMissing Inputs.onlyAExists)
                (accountsPaid (BulkSpl.transferTxs result)).
Proof.
  apply (@created_accounts_are_missing_destinations
           Inputs.onlyAExists
           (Inputs.splConfig None (Some ["A"; "B"; "C"]) (Some 5) (Some 2))
           _ eq_refl).
  - right. discriminate.
  - repeat constructor; eexists; reflexivity.
Defined.

(** X14. When [recipients] is given without [fixedAmount] next to
    [transfers], the two phases read different fields: the orchestrator looks
    up and provisions the recipients of [recipients], in order, and the
    transfer operations are built from [transfers]. *)
Theorem orchestration_recipients_without_amount
        (connection : Connection) (config : BulkSpl.IBulkSplTransferConfig)
        (rs : list string) (ts : list ITransfer) :
  BulkSpl.recipients config = Some rs ->
  BulkSpl.fixedAmount config = None ->
  BulkSpl.transfers config = Some ts ->
  Forall (lookupCompletes connection (BulkSpl.mint config)) rs ->
  lookupsIssued (BulkSpl.generateCompleteBulkSplTransactions connection config)
  = map (fun r => getAssociatedTokenAddressSync (BulkSpl.mint config) (PublicKey_new r))
        rs
  /\ exists result,
      outcome (BulkSpl.generateCompleteBulkSplTransactions connection config)
      = inr result
      /\ concat (BulkSpl.accountCreationTxs result)
         = map (fun r => instruction (createTokenAccountInstruction
                                        (BulkSpl.sender config) (BulkSpl.mint config)
                                        (PublicKey_new r)))
               (filter (isMissing connection (BulkSpl.mint config)) rs)
      /\ concat (map contentOperations (BulkSpl.transferTxs result))
         = map (fun t => createSplTransferInstructionByOwners
                           (BulkSpl.mint config) (BulkSpl.sender config)
                           (PublicKey_new (recipient t)) (amount t)) ts.
Proof.
  intros Hrs Hfixed Hts Hall.
  rewrite (@generateCompleteBulkSplTransactions_completes connection config rs);
    [|unfold recipientListOf; now rewrite Hrs|assumption].
  rewrite generateBulkSplTransactions_groups.
  unfold splRequests, requestsOf. rewrite Hfixed, Hts.
  split; [reflexivity|].
  eexists. split; [reflexivity|].
  cbn [BulkSpl.accountCreationTxs BulkSpl.transferTxs].
  split; [apply chunkAcc_concat|].
  exact (proj1 (proj2 (grouped_transfers
                         (splTransfer config) (splMemo config)
                         (splTransfer_content config) eq_refl
                         (splCapacity config) ts))).
Qed.

Lemma orchestration_recipients_without_amount_witness :
  lookupsIssued (BulkSpl.generateCompleteBulkSplTransactions
                   Inputs.allMissing
                   (Inputs.splConfig (Some [Inputs.request "C" 7])
                                     (Some ["A"; "B"]) None None))
  = [lookupAddress Inputs.mint "A"; lookupAddress Inputs.mint "B"]
  /\ exists result,
      outcome (BulkSpl.generateCompleteBulkSplTransactions
                 Inputs.allMissing
                 (Inputs.splConfig (Some [Inputs.request "C" 7])
                                   (Some ["A"; "B"]) None None))
      = inr result
      /\ concat (BulkSpl.accountCreationTxs result)
         = [Inputs.create "A"; Inputs.create "B"]
      /\ concat (map contentOperations (BulkSpl.transferTxs result))
         = [Inputs.splTo "C" 7].
Proof.
  apply (@orchestration_recipients_without_amount
           Inputs.allMissing
           (Inputs.splConfig (Some [Inputs.request "C" 7]) (Some ["A"; "B"]) None None)
           ["A"; "B"] [Inputs.request "C" 7]); try reflexivity.
  repeat constructor; eexists; reflexivity.
Defined.

(** X15. When the lookup of a derived recipient is rejected and those
    before it complete, the orchestrator is rejected with the reason of that
    lookup after the lookups up to and including it: no later lookup is
    issued and the transfer entry point is not reached, so a configuration
    it would refuse goes unreported. *)
Theorem orchestration_stops_at_rejection
        (connection : Connection) (config : BulkSpl.IBulkSplTransferConfig)
        (before : list string) (r : string) (after : list string) (e : JsError) :
  recipientListOf config = Some (before ++ r :: after) ->
  Forall (lookupCompletes connection (BulkSpl.mint config)) before ->
  connection (getAssociatedTokenAddressSync (BulkSpl.mint config) (PublicKey_new r))
  = Rejects e ->
  BulkSpl.generateCompleteBulkSplTransactions connection config
  = (map (fun r => getAssociatedTokenAddressSync (BulkSpl.mint config) (PublicKey_new r))
         (before ++ [r]),
     inl e).
Proof.
  intros Hlist Hbefore Hrej.
  unfold BulkSpl.generateCompleteBulkSplTransactions.
  rewrite derived_recipientList, Hlist. cbn [bind ret app].
  unfold BulkSpl.generateTokenAccountCreationTransactions.
  rewrite (@creation_loop_stops connection (BulkSpl.mint config) (BulkSpl.sender config)
                                _ _ before r e after 0 emptyBatch Hbefore Hrej).
  reflexivity.
Qed.

Lemma orchestration_stops_at_rejection_witness :
  BulkSpl.generateCompleteBulkSplTransactions
    (Inputs.failsAt "B") (Inputs.splConfig None (Some (["A"] ++ "B" :: ["C"])) None None)
  = ([lookupAddress Inputs.mint "A"; lookupAddress Inputs.mint "B"],
     inl (Error "failed to get info about account")).
Proof.
  apply (@orchestration_stops_at_rejection
           (Inputs.failsAt "B")
           (Inputs.splConfig None (Some (["A"] ++ "B" :: ["C"])) None None)
           ["A"] "B" ["C"]).
  - reflexivity.
  - repeat constructor; eexists; reflexivity.
  - reflexivity.
Defined.

(** [createSplTransferInstructionByOwners] is [createSplTransferInstruction]
    between the associated token accounts of the two owners. *)
Lemma transfer_by_owners_between_token_accounts
      (mint fromOwner toOwner : PublicKey) (rawAmount : Z) :
  createSplTransferInstructionByOwners mint fromOwner toOwner rawAmount
  = createSplTransferInstruction
      (getAssociatedTokenAddressSync mint fromOwner)
      (getAssociatedTokenAddressSync mint toOwner) fromOwner rawAmount.
Proof. reflexivity. Qed.

(** ** More on the transfer entry points *)

Lemma js_cut_opp (a c : Z) :
  js_is_zero (js_rem a (- c)) = js_is_zero (js_rem a c).
Proof.
  unfold js_rem.
  destruct (Z.eqb_spec c 0) as [->|Hc]; [reflexivity|].
  destruct (Z.eqb_spec (- c) 0); [lia|].
  now rewrite Z.rem_opp_r by assumption.
Qed.

Lemma groupsBy_opp (A : Type) (c : Z) (i : nat) (cur l : list A) :
  groupsBy (- c) i cur l = groupsBy c i cur l.
Proof.
  revert i cur. induction l as [|x r IH]; intros i cur; [reflexivity|].
  cbn [groupsBy]. rewrite js_cut_opp, !IH. reflexivity.
Qed.

Lemma groupsBy_zero (A : Type) (i : nat) (cur l : list A) :
  groupsBy 0 i cur l = match l with [] => [] | _ => [cur ++ l] end.
Proof.
  revert i cur. induction l as [|x r IH]; intros i cur; [reflexivity|].
  cbn [groupsBy].
  replace (js_is_zero (js_rem (Z.of_nat i + 1) 0)) with false by reflexivity.
  cbn [orb]. destruct r as [|y r']; [reflexivity|].
  cbn [isNil]. rewrite IH. now rewrite <- app_assoc.
Qed.

(** X16. A negative capacity [-C] is not rejected by the transfer entry
    points and packs as the capacity [C] does: the remainder test
    [(i + 1) % instructionsPerTx === 0] does not see the sign. *)
Theorem negative_capacity_packs_as_positive (C : nat) :
  (1 <= C)%nat ->
  (forall config reqs,
      BulkSpl.instructionsPerTx config = Some (- Z.of_nat C) ->
      splRequests config = Some reqs ->
      exists txs,
        BulkSpl.generateBulkSplTransactions config = inr txs
        /\ PackedEvery C (length reqs) txs)
  /\ (forall config reqs,
         BulkSol.instructionsPerTx config = Some (- Z.of_nat C) ->
         solRequests config = Some reqs ->
         exists txs,
           BulkSol.generateBulkSolTransactions config = inr txs
           /\ PackedEvery C (length reqs) txs).
Proof.
  intros HC. split; intros config reqs Hcap Hreqs.
  - rewrite generateBulkSplTransactions_groups, Hreqs.
    unfold splCapacity. rewrite Hcap. cbn [orDefault]. rewrite groupsBy_opp.
    eexists. split; [reflexivity|].
    now apply grouped_transfers_packed.
  - rewrite generateBulkSolTransactions_groups, Hreqs.
    unfold solCapacity. rewrite Hcap. cbn [orDefault]. rewrite groupsBy_opp.
    eexists. split; [reflexivity|].
    now apply grouped_transfers_packed.
Qed.

Lemma negative_capacity_packs_as_positive_witness :
  exists txs,
    BulkSpl.generateBulkSplTransactions
      (Inputs.splConfig None (Some ["A"; "B"; "C"; "D"; "E"]) (Some 5) (Some (-2)))
    = inr txs
    /\ PackedEvery 2 5 txs.
Proof.
  exact (proj1 (@negative_capacity_packs_as_positive 2 ltac:(lia))
               (Inputs.splConfig None (Some ["A"; "B"; "C"; "D"; "E"]) (Some 5)
                                 (Some (-2)))
               _ eq_refl eq_refl).
Defined.

(** X17. With a capacity of zero the remainder is NaN and never equals zero:
    a non-empty input comes back as one transaction that holds every transfer
    operation, in order, followed by the memo. *)
Theorem zero_capacity_one_transaction :
  (forall config reqs,
      BulkSpl.instructionsPerTx config = Some 0 ->
      splRequests config = Some reqs ->
      reqs <> [] ->
      BulkSpl.generateBulkSplTransactions config
      = inr [map (splTransfer config) reqs ++ [splMemo config]])
  /\ (forall config reqs,
         BulkSol.instructionsPerTx config = Some 0 ->
         solRequests config = Some reqs ->
         reqs <> [] ->
         BulkSol.generateBulkSolTransactions config
         = inr [map (solTransfer config) reqs ++ [solMemo config]]).
Proof.
  split; intros config reqs Hcap Hreqs Hne.
  - rewrite generateBulkSplTransactions_groups, Hreqs.
    unfold splCapacity. rewrite Hcap. cbn [orDefault]. rewrite groupsBy_zero.
    destruct reqs; [contradiction|reflexivity].
  - rewrite generateBulkSolTransactions_groups, Hreqs.
    unfold solCapacity. rewrite Hcap. cbn [orDefault]. rewrite groupsBy_zero.
    destruct reqs; [contradiction|reflexivity].
Qed.

Lemma zero_capacity_one_transaction_witness :
  BulkSol.generateBulkSolTransactions
    (Inputs.solConfig (Some [Inputs.request "A" 10; Inputs.request "B" 20])
                      None None (Some 0))
  = inr [[Inputs.solTo "A" 10; Inputs.solTo "B" 20; Inputs.solMemo]].
Proof.
  apply (proj2 zero_capacity_one_transaction
               (Inputs.solConfig (Some [Inputs.request "A" 10; Inputs.request "B" 20])
                                 None None (Some 0))
               _ eq_refl eq_refl).
  discriminate.
Defined.

Lemma map_by_recipient_and_amount (B : Type) (f : string -> Z -> B)
      (ts ts' : list ITransfer) :
  map recipient ts = map recipient ts' ->
  map amount ts = map amount ts' ->
  map (fun t => f (recipient t) (amount t)) ts
  = map (fun t => f (recipient t) (amount t)) ts'.
Proof.
  revert ts'. induction ts as [|t ts IH]; intros [|t' ts'] Hr Ha;
    try discriminate; [reflexivity|].
  cbn [map] in *. injection Hr as Hr Hrs. injection Ha as Ha Has.
  now rewrite Hr, Ha, (IH ts' Hrs Has).
Qed.

(** X18. The transfer entry points read only [recipient] and [amount] of a
    transfer: two transfers arrays that agree on these give the same
    transactions, so an [associatedTokenAccount] given with a transfer is
    never used, not even as the destination of the SPL transfer. *)
Theorem associatedTokenAccount_is_ignored :
  (forall config ts ts',
      map recipient ts = map recipient ts' ->
      map amount ts = map amount ts' ->
      BulkSpl.generateBulkSplTransactions (splWithTransfers config (Some ts))
      = BulkSpl.generateBulkSplTransactions (splWithTransfers config (Some ts')))
  /\ (forall config ts ts',
         map recipient ts = map recipient ts' ->
         map amount ts = map amount ts' ->
         BulkSol.generateBulkSolTransactions (solWithTransfers config (Some ts))
         = BulkSol.generateBulkSolTransactions (solWithTransfers config (Some ts'))).
Proof.
  split; intros config ts ts' Hr Ha.
  - rewrite !generateBulkSplTransactions_groups.
    unfold splRequests, requestsOf, splWithTransfers.
    cbn [BulkSpl.transfers BulkSpl.recipients BulkSpl.fixedAmount].
    destruct (BulkSpl.fixedAmount config) as [a|];
      [destruct (BulkSpl.recipients config) as [rs|]|]; try reflexivity.
    + f_equal. f_equal. f_equal.
      exact (map_by_recipient_and_amount
               (fun r a => createSplTransferInstructionByOwners
                             (BulkSpl.mint config) (BulkSpl.sender config)
                             (PublicKey_new r) a)
               ts ts' Hr Ha).
    + f_equal. f_equal. f_equal.
      exact (map_by_recipient_and_amount
               (fun r a => createSplTransferInstructionByOwners
                             (BulkSpl.mint config) (BulkSpl.sender config)
                             (PublicKey_new r) a)
               ts ts' Hr Ha).
  - rewrite !generateBulkSolTransactions_groups.
    unfold solRequests, requestsOf, solWithTransfers.
    cbn [BulkSol.transfers BulkSol.recipients BulkSol.fixedAmount].
    destruct (BulkSol.fixedAmount config) as [a|];
      [destruct (BulkSol.recipients config) as [rs|]|]; try reflexivity.
    + f_equal. f_equal. f_equal.
      exact (map_by_recipient_and_amount
               (fun r a => createSolTransferInstruction
                             (BulkSol.sender config) (PublicKey_new r) a)
               ts ts' Hr Ha).
    + f_equal. f_equal. f_equal.
      exact (map_by_recipient_and_amount
               (fun r a => createSolTransferInstruction
                             (BulkSol.sender config) (PublicKey_new r) a)
               ts ts' Hr Ha).
Qed.

Lemma associatedTokenAccount_is_ignored_witness :
  BulkSpl.generateBulkSplTransactions
    (Inputs.splConfig
       (Some [{| recipient := "A"; amount := 10;
                 associatedTokenAccount := Some "tokenAccountOfA" |}])
       None None None)
  = inr [[Inputs.splTo "A" 10; Inputs.splMemo]].
Proof.
  exact (proj1 associatedTokenAccount_is_ignored
               (Inputs.splConfig None None None None)
               [{| recipient := "A"; amount := 10;
                   associatedTokenAccount := Some "tokenAccountOfA" |}]
               [Inputs.request "A" 10] eq_refl eq_refl).
Defined.

(** * The transfer entry points and the refusals of the libraries *)

Section ThrowingLoop.

Variable X : Type.
Variable refusal : X -> option JsError.
Variable built : X -> TransactionInstruction.
Variables (memo : string) (sender : PublicKey) (c : Z) (len : nat).

(** A loop whose body builds one operation, or throws, before it touches the
    batch: it throws the first refusal along the array, and otherwise runs as
    the loop over the operations built. *)
Lemma forEachThrowing_built
      (body : nat -> X -> Batch -> JsError + Batch) (arr : list X)
      (i : nat) (st : Batch) :
  (forall i x st,
      body i x st
      = let? ix := returning (refusal x) (built x) in
        inr (let st := push ix st in
             if transferCut c len i then finalizeTransaction memo sender st else st)) ->
  forEachThrowing body i arr st
  = match firstRefusal refusal arr with
    | Some e => inl e
    | None => inr (forEach (transferStep built memo sender c len) i arr st)
    end.
Proof.
  intros Hbody. revert i st. induction arr as [|x rest IH]; intros i st.
  - reflexivity.
  - cbn [forEachThrowing firstRefusal forEach]. rewrite Hbody.
    destruct (refusal x) as [e|]; cbn [returning andThen]; [reflexivity|].
    apply IH.
Qed.

End ThrowingLoop.

Lemma firstRefusal_map (X Y : Type) (refusal : Y -> option JsError)
      (f : X -> Y) (arr : list X) :
  firstRefusal refusal (map f arr) = firstRefusal (fun x => refusal (f x)) arr.
Proof.
  induction arr as [|x rest IH]; [reflexivity|].
  cbn [map firstRefusal]. now rewrite IH.
Qed.

Lemma firstRefusal_none (X : Type) (refusal : X -> option JsError) (arr : list X) :
  Forall (fun x => refusal x = None) arr -> firstRefusal refusal arr = None.
Proof.
  induction 1 as [|x rest Hx _ IH]; [reflexivity|].
  cbn [firstRefusal]. now rewrite Hx.
Qed.

Lemma firstRefusal_some (X : Type) (refusal : X -> option JsError) (arr : list X)
      (e : JsError) :
  firstRefusal refusal arr = Some e ->
  exists x, In x arr /\ refusal x = Some e.
Proof.
  induction arr as [|x rest IH]; [discriminate|].
  cbn [firstRefusal]. destruct (refusal x) as [e'|] eqn:Hx.
  - intros [= <-]. exists x. split; [now left|assumption].
  - intros Hrest. destruct (IH Hrest) as (y & Hin & Hy).
    exists y. split; [now right|assumption].
Qed.

(** The body of the SOL loops: one operation or the refusal of its request. *)
Lemma sol_body (lib : Library) (config : BulkSol.IBulkSolTransferConfig)
      (t : ITransfer) :
  (let? to := WithLibrary.newPublicKey lib (recipient t) in
   WithLibrary.createSolTransferInstruction lib (BulkSol.sender config) to (amount t))
  = returning (solRefusal lib config t) (solTransfer config t).
Proof.
  unfold WithLibrary.newPublicKey, WithLibrary.createSolTransferInstruction,
    solRefusal, solTransfer, createSolTransferInstruction.
  now destruct (PublicKey_refuses lib (recipient t)).
Qed.

Lemma spl_body (lib : Library) (config : BulkSpl.IBulkSplTransferConfig)
      (t : ITransfer) :
  (let? to := WithLibrary.newPublicKey lib (recipient t) in
   WithLibrary.createSplTransferInstructionByOwners
     lib (BulkSpl.mint config) (BulkSpl.sender config) to (amount t))
  = returning (splRefusal lib config t) (splTransfer config t).
Proof.
  unfold WithLibrary.newPublicKey, WithLibrary.createSplTransferInstructionByOwners,
    WithLibrary.associatedTokenAddress, splRefusal, splTransfer,
    createSplTransferInstructionByOwners.
  destruct (PublicKey_refuses lib (recipient t)); [reflexivity|].
  cbn [returning andThen].
  destruct (getAssociatedTokenAddressSync_refuses
              lib (BulkSpl.mint config) (BulkSpl.sender config));
    [reflexivity|].
  cbn [returning andThen].
  now destruct (getAssociatedTokenAddressSync_refuses
                  lib (BulkSpl.mint config) (PublicKey_new (recipient t))).
Qed.

Lemma andThen_assoc (A B C : Type) (r : JsError + A) (k : A -> JsError + B)
      (h : B -> JsError + C) :
  (let? b := (let? a := r in k a) in h b) = (let? a := r in let? b := k a in h b).
Proof. now destruct r. Qed.

(** With the libraries' refusals, [generateBulkSplTransactions] throws its
    configuration error when the configuration denotes no request, throws the
    first refusal along the requests when there is one, and otherwise returns
    what it returns on accepted inputs. *)
Lemma generateBulkSplTransactions_refusals
      (lib : Library) (config : BulkSpl.IBulkSplTransferConfig) :
  WithLibrary.generateBulkSplTransactions lib config
  = match splRequests config with
    | Some reqs =>
        match firstRefusal (splRefusal lib config) reqs with
        | Some e => inl e
        | None => BulkSpl.generateBulkSplTransactions config
        end
    | None =>
        inl (Error "Either transfers or (recipients + fixedAmount) must be provided")
    end.
Proof.
  unfold WithLibrary.generateBulkSplTransactions, BulkSpl.generateBulkSplTransactions,
    splRequests, requestsOf.
  destruct (BulkSpl.fixedAmount config) as [a|];
    [destruct (BulkSpl.recipients config) as [rs|]|];
    [|destruct (BulkSpl.transfers config) as [ts|]; [|reflexivity]..].
  - rewrite firstRefusal_map.
    rewrite (@forEachThrowing_built
               string
               (fun r => splRefusal lib config
                           {| recipient := r; amount := a;
                              associatedTokenAccount := None |})
               (fun r => createSplTransferInstructionByOwners
                           (BulkSpl.mint config) (BulkSpl.sender config)
                           (PublicKey_new r) a)
               (orDefault (BulkSpl.memo config) BulkSpl.DEFAULT_MEMO)
               (BulkSpl.sender config)
               (orDefault (BulkSpl.instructionsPerTx config)
                          BulkSpl.DEFAULT_INSTRUCTIONS_PER_TX_TRANSFER)
               (length rs)).
    + now destruct (firstRefusal _ rs).
    + intros i r st. rewrite <- andThen_assoc.
      pose proof (spl_body lib config
                    {| recipient := r; amount := a; associatedTokenAccount := None |})
        as Hbody.
      cbn [recipient amount] in Hbody. now rewrite Hbody.
  - rewrite (@forEachThrowing_built
               ITransfer (splRefusal lib config) (splTransfer config)
               (orDefault (BulkSpl.memo config) BulkSpl.DEFAULT_MEMO)
               (BulkSpl.sender config)
               (orDefault (BulkSpl.instructionsPerTx config)
                          BulkSpl.DEFAULT_INSTRUCTIONS_PER_TX_TRANSFER)
               (length ts)).
    + now destruct (firstRefusal _ ts).
    + intros i t st. rewrite <- andThen_assoc. now rewrite spl_body.
  - rewrite (@forEachThrowing_built
               ITransfer (splRefusal lib config) (splTransfer config)
               (orDefault (BulkSpl.memo config) BulkSpl.DEFAULT_MEMO)
               (BulkSpl.sender config)
               (orDefault (BulkSpl.instructionsPerTx config)
                          BulkSpl.DEFAULT_INSTRUCTIONS_PER_TX_TRANSFER)
               (length ts)).
    + now destruct (firstRefusal _ ts).
    + intros i t st. rewrite <- andThen_assoc. now rewrite spl_body.
Qed.

(** The same for [generateBulkSolTransactions]. *)
Lemma generateBulkSolTransactions_refusals
      (lib : Library) (config : BulkSol.IBulkSolTransferConfig) :
  WithLibrary.generateBulkSolTransactions lib config
  = match solRequests config with
    | Some reqs =>
        match firstRefusal (solRefusal lib config) reqs with
        | Some e => inl e
        | None => BulkSol.generateBulkSolTransactions config
        end
    | None =>
        inl (Error "Either transfers or (recipients + fixedAmount) must be provided")
    end.
Proof.
  unfold WithLibrary.generateBulkSolTransactions, BulkSol.generateBulkSolTransactions,
    solRequests, requestsOf.
  destruct (BulkSol.fixedAmount config) as [a|];
    [destruct (BulkSol.recipients config) as [rs|]|];
    [|destruct (BulkSol.transfers config) as [ts|]; [|reflexivity]..].
  - rewrite firstRefusal_map.
    rewrite (@forEachThrowing_built
               string
               (fun r => solRefusal lib config
                           {| recipient := r; amount := a;
                              associatedTokenAccount := None |})
               (fun r => createSolTransferInstruction
                           (BulkSol.sender config) (PublicKey_new r) a)
               (orDefault (BulkSol.memo config) BulkSol.DEFAULT_MEMO)
               (BulkSol.sender config)
               (orDefault (BulkSol.instructionsPerTx config)
                          BulkSol.DEFAULT_INSTRUCTIONS_PER_TX)
               (length rs)).
    + now destruct (firstRefusal _ rs).
    + intros i r st. rewrite <- andThen_assoc.
      pose proof (sol_body lib config
                    {| recipient := r; amount := a; associatedTokenAccount := None |})
        as Hbody.
      cbn [recipient amount] in Hbody. now rewrite Hbody.
  - rewrite (@forEachThrowing_built
               ITransfer (solRefusal lib config) (solTransfer config)
               (orDefault (BulkSol.memo config) BulkSol.DEFAULT_MEMO)
               (BulkSol.sender config)
               (orDefault (BulkSol.instructionsPerTx config)
                          BulkSol.DEFAULT_INSTRUCTIONS_PER_TX)
               (length ts)).
    + now destruct (firstRefusal _ ts).
    + intros i t st. rewrite <- andThen_assoc. now rewrite sol_body.
  - rewrite (@forEachThrowing_built
               ITransfer (solRefusal lib config) (solTransfer config)
               (orDefault (BulkSol.memo config) BulkSol.DEFAULT_MEMO)
               (BulkSol.sender config)
               (orDefault (BulkSol.instructionsPerTx config)
                          BulkSol.DEFAULT_INSTRUCTIONS_PER_TX)
               (length ts)).
    + now destruct (firstRefusal _ ts).
    + intros i t st. rewrite <- andThen_assoc. now rewrite sol_body.
Qed.

Lemma firstRefusal_none_all (X : Type) (refusal : X -> option JsError)
      (arr : list X) :
  firstRefusal refusal arr = None -> Forall (fun x => refusal x = None) arr.
Proof.
  induction arr as [|x rest IH]; [constructor|].
  cbn [firstRefusal]. destruct (refusal x) eqn:Hx; [discriminate|].
  intros Hrest. constructor; [assumption|now apply IH].
Qed.

Lemma requests_when_family (transfers : option (list ITransfer))
      (recipients : option (list string)) (fixedAmount : option Z) :
  transfers <> None \/ (recipients <> None /\ fixedAmount <> None) ->
  exists reqs, requestsOf transfers recipients fixedAmount = Some reqs.
Proof.
  unfold requestsOf. intros [Ht|[Hr Hf]].
  - destruct transfers as [ts|]; [|contradiction].
    destruct fixedAmount, recipients; now eexists.
  - destruct fixedAmount; [|contradiction].
    destruct recipients; [|contradiction]. now eexists.
Qed.

Lemma requests_when_no_family (transfers : option (list ITransfer))
      (recipients : option (list string)) (fixedAmount : option Z) :
  transfers = None /\ (recipients = None \/ fixedAmount = None) ->
  requestsOf transfers recipients fixedAmount = None.
Proof.
  unfold requestsOf. intros [-> [-> | ->]].
  - now destruct fixedAmount.
  - reflexivity.
Qed.

(** What a run over the requests [reqs] can end as, given how it splits on
    the first refusal. *)
Lemma returns_unless_refused (X : Type) (refusal : X -> option JsError)
      (reqs : list X) (run : JsError + list Transaction) (txs : list Transaction) :
  run = match firstRefusal refusal reqs with
        | Some e => inl e
        | None => inr txs
        end ->
  ((exists txs', run = inr txs') <-> Forall (fun t => refusal t = None) reqs)
  /\ (forall e, run = inl e -> exists t, In t reqs /\ refusal t = Some e).
Proof.
  intros ->. split; [split|].
  - intros [txs' Hrun]. apply firstRefusal_none_all.
    now destruct (firstRefusal refusal reqs).
  - intros Hall. rewrite (@firstRefusal_none X refusal reqs Hall). now exists txs.
  - intros e Hrun. apply (@firstRefusal_some X refusal reqs e).
    destruct (firstRefusal refusal reqs); congruence.
Qed.

(** C6, as the claim states it, fails: with a family present the entry
    points still throw when the library refuses a recipient; here
    [new PublicKey] refuses a string that is not the text of a key. *)
Lemma library_refusal_counterexample :
  WithLibrary.generateBulkSolTransactions
    refusingShortKeys
    (Inputs.solConfig None (Some ["not a key"]) (Some 5) None)
  = inl (Error "Invalid public key input")
  /\ WithLibrary.generateBulkSplTransactions
       refusingShortKeys
       (Inputs.splConfig
          (Some [Inputs.request "11111111111111111111111111111111" 10;
                 Inputs.request "not a key" 20])
          None None None)
     = inl (Error "Invalid public key input").
Proof. split; reflexivity. Qed.

(** C6, amended.  The transfer entry points throw their configuration error
    when [transfers] is absent and [recipients] and [fixedAmount] are not
    both present, whatever the library refuses.  When a family is present
    they throw no error of their own: they return their transactions exactly
    when the library refuses no call made for the requests, and an error they
    end with is the library's refusal of one of the requests. *)
Theorem configuration_error_or_refusal (lib : Library) :
  (forall config,
      (BulkSpl.transfers config = None
       /\ (BulkSpl.recipients config = None \/ BulkSpl.fixedAmount config = None) ->
       WithLibrary.generateBulkSplTransactions lib config
       = inl (Error "Either transfers or (recipients + fixedAmount) must be provided"))
      /\ (BulkSpl.transfers config <> None
          \/ (BulkSpl.recipients config <> None /\ BulkSpl.fixedAmount config <> None) ->
          exists reqs,
            splRequests config = Some reqs
            /\ ((exists txs, WithLibrary.generateBulkSplTransactions lib config = inr txs)
                <-> Forall (fun t => splRefusal lib config t = None) reqs)
            /\ (forall e,
                   WithLibrary.generateBulkSplTransactions lib config = inl e ->
                   exists t, In t reqs /\ splRefusal lib config t = Some e)))
  /\ (forall config,
         (BulkSol.transfers config = None
          /\ (BulkSol.recipients config = None \/ BulkSol.fixedAmount config = None) ->
          WithLibrary.generateBulkSolTransactions lib config
          = inl (Error "Either transfers or (recipients + fixedAmount) must be provided"))
         /\ (BulkSol.transfers config <> None
             \/ (BulkSol.recipients config <> None /\ BulkSol.fixedAmount config <> None) ->
             exists reqs,
               solRequests config = Some reqs
               /\ ((exists txs,
                       WithLibrary.generateBulkSolTransactions lib config = inr txs)
                   <-> Forall (fun t => solRefusal lib config t = None) reqs)
               /\ (forall e,
                      WithLibrary.generateBulkSolTransactions lib config = inl e ->
                      exists t, In t reqs /\ solRefusal lib config t = Some e))).
Proof.
  split; intros config; split.
  - intros Hnone. rewrite generateBulkSplTransactions_refusals.
    unfold splRequests. now rewrite (requests_when_no_family Hnone).
  - intros Hfamily. destruct (requests_when_family Hfamily) as [reqs Hreqs].
    exists reqs. split; [exact Hreqs|].
    apply returns_unless_refused
      with (txs := map (withMemo (splMemo config))
                       (groupsBy (splCapacity config) 0 []
                                 (map (splTransfer config) reqs))).
    rewrite generateBulkSplTransactions_refusals, generateBulkSplTransactions_groups.
    unfold splRequests. now rewrite Hreqs.
  - intros Hnone. rewrite generateBulkSolTransactions_refusals.
    unfold solRequests. now rewrite (requests_when_no_family Hnone).
  - intros Hfamily. destruct (requests_when_family Hfamily) as [reqs Hreqs].
    exists reqs. split; [exact Hreqs|].
    apply returns_unless_refused
      with (txs := map (withMemo (solMemo config))
                       (groupsBy (solCapacity config) 0 []
                                 (map (solTransfer config) reqs))).
    rewrite generateBulkSolTransactions_refusals, generateBulkSolTransactions_groups.
    unfold solRequests. now rewrite Hreqs.
Qed.

Lemma configuration_error_or_refusal_witness :
  WithLibrary.generateBulkSplTransactions
    refusingShortKeys (Inputs.splConfig None (Some ["not a key"]) None None)
  = inl (Error "Either transfers or (recipients + fixedAmount) must be provided")
  /\ (exists txs,
         WithLibrary.generateBulkSolTransactions
           refusingShortKeys
           (Inputs.solConfig
              None
              (Some ["11111111111111111111111111111111";
                     "MemoSq4gqABAXKb96qnH8TysNcWxMyWCqXgDLGmfcHr"])
              (Some 5) None)
         = inr txs).
Proof.
  split.
  - apply (proj1 (proj1 (configuration_error_or_refusal refusingShortKeys)
                        (Inputs.splConfig None (Some ["not a key"]) None None))).
    split; [reflexivity|now right].
  - pose proof (proj2 (proj2 (configuration_error_or_refusal refusingShortKeys)
                             (Inputs.solConfig
                                None
                                (Some ["11111111111111111111111111111111";
                                       "MemoSq4gqABAXKb96qnH8TysNcWxMyWCqXgDLGmfcHr"])
                                (Some 5) None))) as Hfamily.
    cbn [Inputs.solConfig BulkSol.transfers BulkSol.recipients BulkSol.fixedAmount]
      in Hfamily.
    destruct Hfamily as (reqs & Hreqs & Hreturns & _);
      [right; split; discriminate|].
    apply (proj2 Hreturns).
    vm_compute in Hreqs. injection Hreqs as <-.
    repeat (constructor; [reflexivity|]). constructor.
Defined.

(** C10, as the claim states it, fails: with both families present the
    entry points still throw when the library refuses a recipient of
    [recipients]. *)
Lemma both_families_refusal_counterexample :
  WithLibrary.generateBulkSplTransactions
    refusingShortKeys
    (Inputs.splConfig
       (Some [Inputs.request "11111111111111111111111111111111" 10])
       (Some ["not a key"]) (Some 5) None)
  = inl (Error "Invalid public key input")
  /\ WithLibrary.generateBulkSolTransactions
       refusingShortKeys
       (Inputs.solConfig
          (Some [Inputs.request "11111111111111111111111111111111" 10])
          (Some ["not a key"]) (Some 5) None)
     = inl (Error "Invalid public key input").
Proof. split; reflexivity. Qed.

(** C10, amended.  With [transfers], [recipients] and [fixedAmount] all
    present the transfer entry points do the same whatever [transfers] holds,
    also when it is absent.  They return their transactions exactly when the
    library refuses no call made for a recipient of [recipients] with the
    shared amount; the transfer operations returned are then those
    recipients, in order, each with the shared amount; and an error they end
    with is the library's refusal of one of those recipients, never the
    configuration error. *)
Theorem both_families_use_recipients (lib : Library) :
  (forall config ts rs a,
      BulkSpl.transfers config = Some ts ->
      BulkSpl.recipients config = Some rs ->
      BulkSpl.fixedAmount config = Some a ->
      (forall ts',
          WithLibrary.generateBulkSplTransactions lib (splWithTransfers config ts')
          = WithLibrary.generateBulkSplTransactions lib config)
      /\ ((exists txs, WithLibrary.generateBulkSplTransactions lib config = inr txs)
          <-> Forall (fun r => splRefusal lib config (fixedRequest r a) = None) rs)
      /\ (forall txs,
             WithLibrary.generateBulkSplTransactions lib config = inr txs ->
             concat (map contentOperations txs)
             = map (fun r => createSplTransferInstructionByOwners
                               (BulkSpl.mint config) (BulkSpl.sender config)
                               (PublicKey_new r) a) rs)
      /\ (forall e,
             WithLibrary.generateBulkSplTransactions lib config = inl e ->
             exists r, In r rs /\ splRefusal lib config (fixedRequest r a) = Some e))
  /\ (forall config ts rs a,
         BulkSol.transfers config = Some ts ->
         BulkSol.recipients config = Some rs ->
         BulkSol.fixedAmount config = Some a ->
         (forall ts',
             WithLibrary.generateBulkSolTransactions lib (solWithTransfers config ts')
             = WithLibrary.generateBulkSolTransactions lib config)
         /\ ((exists txs, WithLibrary.generateBulkSolTransactions lib config = inr txs)
             <-> Forall (fun r => solRefusal lib config (fixedRequest r a) = None) rs)
         /\ (forall txs,
                WithLibrary.generateBulkSolTransactions lib config = inr txs ->
                concat (map contentOperations txs)
                = map (fun r => createSolTransferInstruction
                                  (BulkSol.sender config) (PublicKey_new r) a) rs)
         /\ (forall e,
                WithLibrary.generateBulkSolTransactions lib config = inl e ->
                exists r, In r rs /\ solRefusal lib config (fixedRequest r a) = Some e)).
Proof.
  split; intros config ts rs a _ Hrs Ha.
  - split.
    { intros ts'.
      unfold WithLibrary.generateBulkSplTransactions, splWithTransfers.
      cbn [BulkSpl.sender BulkSpl.mint BulkSpl.transfers BulkSpl.recipients
           BulkSpl.fixedAmount BulkSpl.instructionsPerTx BulkSpl.memo].
      now rewrite Hrs, Ha. }
    pose proof (generateBulkSplTransactions_refusals lib config) as Hrun.
    rewrite generateBulkSplTransactions_groups in Hrun.
    unfold splRequests, requestsOf in Hrun. rewrite Hrs, Ha in Hrun.
    rewrite firstRefusal_map in Hrun.
    destruct (@returns_unless_refused
                string (fun r => splRefusal lib config (fixedRequest r a))
                rs _ _ Hrun) as [Hreturns Herror].
    split; [exact Hreturns|]. split; [|exact Herror].
    intros txs Htxs. rewrite Htxs in Hrun.
    destruct (firstRefusal _ rs); [discriminate|]. injection Hrun as ->.
    etransitivity;
      [exact (proj1 (proj2 (grouped_transfers
                              (splTransfer config) (splMemo config)
                              (splTransfer_content config) eq_refl
                              (splCapacity config) (map (fun r => fixedRequest r a) rs))))|].
    now rewrite map_map.
  - split.
    { intros ts'.
      unfold WithLibrary.generateBulkSolTransactions, solWithTransfers.
      cbn [BulkSol.sender BulkSol.transfers BulkSol.recipients
           BulkSol.fixedAmount BulkSol.instructionsPerTx BulkSol.memo].
      now rewrite Hrs, Ha. }
    pose proof (generateBulkSolTransactions_refusals lib config) as Hrun.
    rewrite generateBulkSolTransactions_groups in Hrun.
    unfold solRequests, requestsOf in Hrun. rewrite Hrs, Ha in Hrun.
    rewrite firstRefusal_map in Hrun.
    destruct (@returns_unless_refused
                string (fun r => solRefusal lib config (fixedRequest r a))
                rs _ _ Hrun) as [Hreturns Herror].
    split; [exact Hreturns|]. split; [|exact Herror].
    intros txs Htxs. rewrite Htxs in Hrun.
    destruct (firstRefusal _ rs); [discriminate|]. injection Hrun as ->.
    etransitivity;
      [exact (proj1 (proj2 (grouped_transfers
                              (solTransfer config) (solMemo config)
                              (solTransfer_content config) eq_refl
                              (solCapacity config) (map (fun r => fixedRequest r a) rs))))|].
    now rewrite map_map.
Qed.

Lemma both_families_use_recipients_witness :
  WithLibrary.generateBulkSplTransactions
    refusingShortKeys
    (splWithTransfers
       (Inputs.splConfig
          (Some [Inputs.request "not a key" 10])
          (Some ["11111111111111111111111111111111"]) (Some 5) None)
       None)
  = WithLibrary.generateBulkSplTransactions
      refusingShortKeys
      (Inputs.splConfig
         (Some [Inputs.request "not a key" 10])
         (Some ["11111111111111111111111111111111"]) (Some 5) None)
  /\ (exists txs,
         WithLibrary.generateBulkSolTransactions
           refusingShortKeys
           (Inputs.solConfig
              (Some [Inputs.request "not a key" 10])
              (Some ["11111111111111111111111111111111"]) (Some 5) None)
         = inr txs
         /\ concat (map contentOperations txs)
            = [Inputs.solTo "11111111111111111111111111111111" 5]).
Proof.
  split.
  - exact (proj1 (proj1 (both_families_use_recipients refusingShortKeys)
                        (Inputs.splConfig
                           (Some [Inputs.request "not a key" 10])
                           (Some ["11111111111111111111111111111111"]) (Some 5) None)
                        [Inputs.request "not a key" 10]
                        ["11111111111111111111111111111111"] 5
                        eq_refl eq_refl eq_refl)
                 None).
  - destruct (proj2 (both_families_use_recipients refusingShortKeys)
                    (Inputs.solConfig
                       (Some [Inputs.request "not a key" 10])
                       (Some ["11111111111111111111111111111111"]) (Some 5) None)
                    [Inputs.request "not a key" 10]
                    ["11111111111111111111111111111111"] 5
                    eq_refl eq_refl eq_refl)
      as (_ & Hreturns & Hcontent & _).
    destruct (proj2 Hreturns) as [txs Htxs].
    + repeat (constructor; [reflexivity|]). constructor.
    + exists txs. split; [exact Htxs|]. exact (Hcontent txs Htxs).
Defined.
